(** * sentry-selfhosted-mcp: the tool dispatch layer of [src/index.ts]

    A shallow embedding of the argument type guards, the issue-id
    extractor [getIssueId], the tool catalog returned by the ListTools
    handler and the CallTool handler with its [catch] block, followed by
    the properties the specification states about them.

    Conventions.
    - JavaScript values are the inductive [value]; numbers are IEEE
      binary64 floats, objects are association lists in property order.
    - Strings are byte strings.  Every string the code inspects is compared
      against ASCII literals or tested against [/^\d+$/], and a byte of a
      multi-byte UTF-8 sequence is never an ASCII character, so both tests
      agree with their UTF-16 originals.
    - An [async] handler is a finite tree of upstream requests
      ([Async]); [await], [throw] and [try]/[catch] are operations on it.
    - What the platform provides and the source only calls (the [URL]
      constructor, [JSON.stringify]) is a field of [Runtime]; the process
      configuration is [Config].
    - [console.error] and [console.warn] only write to the log and are
      left out. *)

From Stdlib Require Import String Ascii List ZArith Lia Bool.
From Stdlib Require Import DecimalString PrimFloat Uint63 FloatOps SpecFloat.
Import ListNotations.

Local Open Scope string_scope.
Local Open Scope bool_scope.

(* ================================================================== *)
(** ** Strings *)

Module Str.

(** [String(n)] for an integer [n]. *)
Definition of_Z (z : Z) : string := NilZero.string_of_int (Z.to_int z).
Definition of_nat (n : nat) : string := NilZero.string_of_uint (Nat.to_uint n).

Definition is_digit (c : ascii) : bool :=
  let n := nat_of_ascii c in (48 <=? n)%nat && (n <=? 57)%nat.

Fixpoint all_digits (s : string) : bool :=
  match s with
  | EmptyString => true
  | String c s' => is_digit c && all_digits s'
  end.

(** [/^\d+$/.test(s)]: one or more characters, each of [0-9]. *)
Definition test_digits (s : string) : bool :=
  match s with
  | EmptyString => false
  | String _ _ => all_digits s
  end.

(** [s.split(sep)] for a one-character separator: never empty, the
    empty string splits into one empty piece. *)
Fixpoint split (sep : ascii) (s : string) : list string :=
  match s with
  | EmptyString => [EmptyString]
  | String c s' =>
      if Ascii.eqb c sep then EmptyString :: split sep s'
      else match split sep s' with
           | [] => [String c EmptyString]
           | w :: ws => String c w :: ws
           end
  end.

Fixpoint indexOf_from (l : list string) (x : string) (i : Z) : Z :=
  match l with
  | [] => (-1)%Z
  | y :: l' => if String.eqb y x then i else indexOf_from l' x (i + 1)%Z
  end.

(** [l.indexOf(x)]: the first index holding [x], or [-1]. *)
Definition indexOf (l : list string) (x : string) : Z := indexOf_from l x 0%Z.

(** [l.includes(x)]. *)
Definition includes (l : list string) (x : string) : bool :=
  existsb (String.eqb x) l.

Definition nonempty (s : string) : bool :=
  match s with EmptyString => false | String _ _ => true end.

(** The double-quote character, and a string between two of them. *)
Definition dquote : string := String (ascii_of_nat 34) EmptyString.
Definition quoted (s : string) : string := dquote ++ s ++ dquote.

End Str.

(* ================================================================== *)
(** ** JavaScript values *)

Module JS.

#[warnings="-register-all"]
Inductive value : Type :=
| VUndefined
| VNull
| VBool (b : bool)
| VNum (x : float)
| VStr (s : string)
| VArr (items : list value)
| VObj (fields : list (string * value)).

Definition props : Type := list (string * value).

(** The [typeof] operator. *)
Definition typeof (v : value) : string :=
  match v with
  | VUndefined => "undefined"
  | VNull => "object"
  | VBool _ => "boolean"
  | VNum _ => "number"
  | VStr _ => "string"
  | VArr _ => "object"
  | VObj _ => "object"
  end.

Definition is_null (v : value) : bool :=
  match v with VNull => true | _ => false end.

Definition is_undefined (v : value) : bool :=
  match v with VUndefined => true | _ => false end.

(** Truthiness, as [if (v)] and [!v] decide it. *)
Definition truthy (v : value) : bool :=
  match v with
  | VUndefined | VNull => false
  | VBool b => b
  | VNum x => negb (PrimFloat.is_zero x || PrimFloat.is_nan x)
  | VStr s => Str.nonempty s
  | VArr _ | VObj _ => true
  end.

Fixpoint lookup (fs : props) (k : string) : option value :=
  match fs with
  | [] => None
  | (k', v) :: fs' => if String.eqb k' k then Some v else lookup fs' k
  end.

Fixpoint index_lookup (items : list value) (i : nat) (k : string) : option value :=
  match items with
  | [] => None
  | v :: items' =>
      if String.eqb (Str.of_nat i) k then Some v else index_lookup items' (S i) k
  end.

Definition num_of_nat (n : nat) : float :=
  PrimFloat.of_uint63 (Uint63.of_Z (Z.of_nat n)).

(** [v.k] for an object or an array (own properties; an array has its
    indices and [length]).  The guards read a property only after
    [typeof v === 'object' && v !== null], so the other cases, where
    JavaScript would box the primitive or throw, are not reached and
    read as [undefined] here. *)
Definition get_prop (v : value) (k : string) : value :=
  match v with
  | VObj fs => match lookup fs k with Some x => x | None => VUndefined end
  | VArr items =>
      if String.eqb k "length" then VNum (num_of_nat (length items))
      else match index_lookup items 0 k with Some x => x | None => VUndefined end
  | _ => VUndefined
  end.

(** [o.k = v] on an ordinary object: an existing property keeps its
    place, a new one goes last. *)
Fixpoint set_prop (fs : props) (k : string) (v : value) : props :=
  match fs with
  | [] => [(k, v)]
  | (k', v') :: fs' =>
      if String.eqb k' k then (k', v) :: fs' else (k', v') :: set_prop fs' k v
  end.

Fixpoint indexed (items : list value) (i : nat) : props :=
  match items with
  | [] => []
  | v :: items' => (Str.of_nat i, v) :: indexed items' (S i)
  end.

Fixpoint chars (s : string) : list value :=
  match s with
  | EmptyString => []
  | String c s' => VStr (String c EmptyString) :: chars s'
  end.

(** The own enumerable properties [{ ...v }] copies: the fields of an
    object, the indexed elements of an array or of a string, and nothing
    for the other primitives.  A string is spread byte by byte here, which
    is its spreading by UTF-16 code unit for ASCII text only. *)
Definition spread (v : value) : props :=
  match v with
  | VObj fs => fs
  | VArr items => indexed items 0
  | VStr s => indexed (chars s) 0
  | _ => []
  end.

(** The string a validated string argument holds. *)
Definition str_of (v : value) : string :=
  match v with VStr s => s | _ => EmptyString end.

End JS.

Import JS.

(* ================================================================== *)
(** ** Argument type guards *)

Definition is_object (args : value) : bool :=
  String.eqb (typeof args) "object" && negb (is_null args).

Definition is_string (v : value) : bool := String.eqb (typeof v) "string".

Definition isValidGetIssueArgs (args : value) : bool :=
  is_object args && is_string (get_prop args "issue_id_or_url").

Definition isValidListIssuesArgs (args : value) : bool :=
  is_object args && is_string (get_prop args "project_slug") &&
  (is_undefined (get_prop args "query") || is_string (get_prop args "query")) &&
  (is_undefined (get_prop args "status") || is_string (get_prop args "status")).

Definition isValidGetEventArgs (args : value) : bool :=
  is_object args && is_string (get_prop args "project_slug") &&
  is_string (get_prop args "event_id").

Definition isValidUpdateIssueArgs (args : value) : bool :=
  is_object args && is_string (get_prop args "issue_id") &&
  is_string (get_prop args "status") &&
  match get_prop args "status" with
  | VStr s => Str.includes ["resolved"; "ignored"; "unresolved"] s
  | _ => false
  end.

Definition isValidCreateCommentArgs (args : value) : bool :=
  is_object args && is_string (get_prop args "issue_id") &&
  is_string (get_prop args "comment_text").

(* ================================================================== *)
(** ** The platform and the configuration *)

(** What [new URL(input)] leaves for the code to read. *)
Record URL : Type := { pathname : string }.

Record Runtime : Type := {
  (** [new URL(input)]; [None] when the constructor throws. *)
  URL_parse : string -> option URL;
  (** [JSON.stringify(v)]. *)
  JSON_stringify : value -> string;
  (** [JSON.stringify(v, null, 2)]. *)
  JSON_stringify_indent : value -> string
}.

Record Config : Type := {
  SENTRY_BASE_URL : string;
  ORG_SLUG : string
}.

(* ================================================================== *)
(** ** The issue-id extractor *)

Section Extractor.

Context (rt : Runtime).

(** The [try] block once [new URL] has returned: the segment after the
    first ["issues"] segment of the path, when it is all digits. *)
Definition issueIdOfPath (path : string) : option string :=
  let pathParts := Str.split "/" path in
  let issuesIndex := Str.indexOf pathParts "issues" in
  if negb (issuesIndex =? -1)%Z &&
     (Z.of_nat (length pathParts) >? issuesIndex + 1)%Z
  then
    match nth_error pathParts (Z.to_nat (issuesIndex + 1)) with
    | Some potentialId =>
        if Str.test_digits potentialId then Some potentialId else None
    | None => None
    end
  else None.

Definition getIssueId (input : string) : option string :=
  match URL_parse rt input with
  | Some url => issueIdOfPath (pathname url)
  | None => if Str.test_digits input then Some input else None
  end.

End Extractor.

(* ================================================================== *)
(** ** Failures, upstream requests and async handlers *)

(** The JSON-RPC error codes of the protocol SDK's [ErrorCode]. *)
Inductive ErrorCode : Type :=
| ParseError
| InvalidRequest
| MethodNotFound
| InvalidParams
| InternalError.

(** An upstream HTTP response, as axios hands it over. *)
Record AxiosResponse : Type := { status : Z; data : value }.

(** What a [throw] or a rejected promise can carry, by the tests the
    [catch] block applies: [axios.isAxiosError], [instanceof McpError],
    [instanceof Error], and whatever passes none of them. *)
Inductive exn : Type :=
| AxiosError (message : string) (response : option AxiosResponse)
| McpError (code : ErrorCode) (message : string)
| Error (message : string)
| Thrown (v : value).

(** [axiosInstance.get(path, { params })]; a call without a second
    argument has no parameters. *)
Record Request : Type := { path : string; params : list (string * string) }.

Inductive Async (A : Type) : Type :=
| Resolve (a : A)
| Reject (e : exn)
| HttpGet (req : Request) (k : AxiosResponse + exn -> Async A).

Arguments Resolve {A} a.
Arguments Reject {A} e.
Arguments HttpGet {A} req k.

Fixpoint bind {A B : Type} (p : Async A) (f : A -> Async B) : Async B :=
  match p with
  | Resolve a => f a
  | Reject e => Reject e
  | HttpGet req k => HttpGet req (fun r => bind (k r) f)
  end.

(** [try { p } catch (e) { h e }]. *)
Fixpoint try_catch {A : Type} (p : Async A) (h : exn -> Async A) : Async A :=
  match p with
  | Resolve a => Resolve a
  | Reject e => h e
  | HttpGet req k => HttpGet req (fun r => try_catch (k r) h)
  end.

(** [await axiosInstance.get(...)]: the response, or the rejection thrown. *)
Definition await_get (req : Request) : Async AxiosResponse :=
  HttpGet req (fun r => match r with inl resp => Resolve resp | inr e => Reject e end).

Definition throw {A : Type} (e : exn) : Async A := Reject e.

Notation "x <- p ;; q" := (bind p (fun x => q))
  (at level 61, p at next level, right associativity).

(** The upstream service: its answer to a request, which may depend on
    the requests made before it. *)
Definition Upstream : Type := list Request -> Request -> AxiosResponse + exn.

Inductive Outcome (A : Type) : Type :=
| Returned (a : A)
| Threw (e : exn).

Arguments Returned {A} a.
Arguments Threw {A} e.

(** Running a handler against an upstream: the requests issued, in
    order, and how the handler ended. *)
Fixpoint run {A : Type} (up : Upstream) (sent : list Request) (p : Async A)
  : list Request * Outcome A :=
  match p with
  | Resolve a => (sent, Returned a)
  | Reject e => (sent, Threw e)
  | HttpGet req k => run up (sent ++ [req]) (k (up sent req))
  end.

(* ================================================================== *)
(** ** Tool results and the tool catalog *)

Record TextContent : Type := { type : string; text : string }.

(** [isError] is [None] where the returned object has no such property. *)
Record ToolResult : Type := { content : list TextContent; isError : option bool }.

(** The error flag a caller reads: an absent [isError] is not an error. *)
Definition is_error (r : ToolResult) : bool :=
  match isError r with Some b => b | None => false end.

Record Tool : Type := { name : string; description : string; inputSchema : value }.

Definition string_property (d : string) : value :=
  VObj [("type", VStr "string"); ("description", VStr d)].

Definition object_schema (properties : props) (required : list string) : value :=
  VObj [("type", VStr "object");
        ("properties", VObj properties);
        ("required", VArr (map VStr required))].

(** The [tools] array of the ListTools handler. *)
Definition listTools : list Tool :=
  [ {| name := "get_sentry_issue";
       description := "Retrieve details for a specific Sentry issue by ID or URL, including the stacktrace from the latest event.";
       inputSchema :=
         object_schema
           [("issue_id_or_url",
             string_property "Sentry issue ID or full issue URL. Issue ID is a number e.g: 123456")]
           ["issue_id_or_url"] |};
    {| name := "list_sentry_projects";
       description := "List all projects within the configured Sentry organization.";
       inputSchema := object_schema [] [] |};
    {| name := "list_sentry_issues";
       description := "List issues for a specific project, optionally filtering by query or status.";
       inputSchema :=
         object_schema
           [("project_slug",
             (string_property
               ("The slug of the project (e.g., " ++ Str.quoted "my-web-app" ++ ").")));
            ("query",
             (string_property
               ("Optional Sentry search query (e.g., " ++
                Str.quoted "is:unresolved environment:production" ++ ").")));
            ("status",
             VObj [("type", VStr "string");
                   ("enum", VArr [VStr "resolved"; VStr "unresolved"; VStr "ignored"]);
                   ("description", VStr "Optional issue status filter.")])]
           ["project_slug"] |};
    {| name := "get_sentry_event_details";
       description := "Retrieve details for a specific event ID within a project.";
       inputSchema :=
         object_schema
           [("project_slug", string_property "The slug of the project.");
            ("event_id", string_property "The ID of the event.")]
           ["project_slug"; "event_id"] |} ].

(* ================================================================== *)
(** ** The CallTool handler *)

Definition text_result (t : string) : ToolResult :=
  {| content := [ {| type := "text"; text := t |} ]; isError := None |}.

Definition error_result (errorMessage : string) : ToolResult :=
  {| content := [ {| type := "text"; text := errorMessage |} ]; isError := Some true |}.

Definition get (p : string) : Request := {| path := p; params := [] |}.

Fixpoint params_lookup (ps : list (string * string)) (k : string) : option string :=
  match ps with
  | [] => None
  | (k', v) :: ps' => if String.eqb k' k then Some v else params_lookup ps' k
  end.

Fixpoint params_set (ps : list (string * string)) (k v : string) : list (string * string) :=
  match ps with
  | [] => [(k, v)]
  | (k', v') :: ps' =>
      if String.eqb k' k then (k', v) :: ps' else (k', v') :: params_set ps' k v
  end.

(** The [params] object the list_sentry_issues branch builds from
    validated arguments. *)
Definition listIssuesParams (args : value) : list (string * string) :=
  let params := [] in
  let params :=
    if truthy (get_prop args "query")
    then params_set params "query" (str_of (get_prop args "query"))
    else params in
  let params :=
    if truthy (get_prop args "status")
    then params_set params "query"
           ((match params_lookup params "query" with
             | Some q => if Str.nonempty q then q ++ " " else EmptyString
             | None => EmptyString
             end) ++ "is:" ++ str_of (get_prop args "status"))
    else params in
  params.

Section Handler.

Context (rt : Runtime) (cfg : Config).

(** The body of the [try] block. *)
Definition callTool_try (toolName : string) (args : value) : Async ToolResult :=
  if String.eqb toolName "get_sentry_issue" then
    if negb (isValidGetIssueArgs args) then
      throw (McpError InvalidParams "Invalid args for get_sentry_issue.")
    else
      let issue_id_or_url := str_of (get_prop args "issue_id_or_url") in
      match getIssueId rt issue_id_or_url with
      | Some issueId =>
          if Str.nonempty issueId then
            issueResponse <- await_get (get ("issues/" ++ issueId ++ "/")) ;;
            let issueData := data issueResponse in
            let combinedData := set_prop (spread issueData) "latest_event" VNull in
            combinedData <-
              try_catch
                (eventResponse <-
                   await_get (get ("organizations/" ++ ORG_SLUG cfg ++ "/issues/" ++
                                   issueId ++ "/events/latest/")) ;;
                 Resolve (set_prop combinedData "latest_event" (data eventResponse)))
                (fun eventError => Resolve combinedData) ;;
            Resolve (text_result (JSON_stringify_indent rt (VObj combinedData)))
          else
            throw (McpError InvalidParams
                     ("Could not extract issue ID from: " ++ issue_id_or_url))
      | None =>
          throw (McpError InvalidParams
                   ("Could not extract issue ID from: " ++ issue_id_or_url))
      end
  else if String.eqb toolName "list_sentry_projects" then
    response <- await_get (get ("organizations/" ++ ORG_SLUG cfg ++ "/projects/")) ;;
    Resolve (text_result (JSON_stringify_indent rt (data response)))
  else if String.eqb toolName "list_sentry_issues" then
    if negb (isValidListIssuesArgs args) then
      throw (McpError InvalidParams "Invalid args for list_sentry_issues.")
    else
      let params := listIssuesParams args in
      response <-
        await_get {| path := "projects/" ++ ORG_SLUG cfg ++ "/" ++
                             str_of (get_prop args "project_slug") ++ "/issues/";
                     params := params |} ;;
      Resolve (text_result (JSON_stringify_indent rt (data response)))
  else if String.eqb toolName "get_sentry_event_details" then
    if negb (isValidGetEventArgs args) then
      throw (McpError InvalidParams "Invalid args for get_sentry_event_details.")
    else
      response <-
        await_get (get ("projects/" ++ ORG_SLUG cfg ++ "/" ++
                        str_of (get_prop args "project_slug") ++ "/events/" ++
                        str_of (get_prop args "event_id") ++ "/")) ;;
      Resolve (text_result (JSON_stringify_indent rt (data response)))
  else
    throw (McpError MethodNotFound ("Unknown tool: " ++ toolName)).

(** The [catch] block: the error classifier. *)
Definition classify (toolName : string) (error : exn) : Async ToolResult :=
  let errorMessage := "Failed to execute tool " ++ toolName ++ "." in
  match error with
  | AxiosError message response =>
      let errorMessage := "Sentry API error for " ++ toolName ++ ": " ++ message in
      let errorMessage :=
        match response with
        | Some r =>
            let errorMessage :=
              errorMessage ++ " Status: " ++ Str.of_Z (status r) ++
              ". Response: " ++ JSON_stringify rt (data r) in
            if (status r >=? 400)%Z && (status r <? 500)%Z then
              if (status r =? 401)%Z || (status r =? 403)%Z then
                "Sentry API permission denied for " ++ toolName ++
                ". Check auth token validity and permissions."
              else if (status r =? 404)%Z then
                "Sentry resource not found for " ++ toolName ++ ". Check IDs/slugs."
              else errorMessage
            else errorMessage
        | None => errorMessage
        end in
      Resolve (error_result errorMessage)
  | McpError _ _ => throw error
  | Error message => Resolve (error_result message)
  | Thrown _ => Resolve (error_result errorMessage)
  end.

(** The CallTool request handler. *)
Definition callTool (toolName : string) (args : value) : Async ToolResult :=
  try_catch (callTool_try toolName args) (classify toolName).

End Handler.

(** The request of the list_sentry_issues branch, given its parameters. *)
Definition issuesRequest (cfg : Config) (args : value) (ps : list (string * string))
  : Request :=
  {| path := "projects/" ++ ORG_SLUG cfg ++ "/" ++
             str_of (get_prop args "project_slug") ++ "/issues/";
     params := ps |}.

(** One invocation of the handler against an upstream, nothing having
    been sent before: the requests issued and the outcome. *)
Definition call (rt : Runtime) (cfg : Config) (up : Upstream)
    (toolName : string) (args : value) : list Request * Outcome ToolResult :=
  run up [] (callTool rt cfg toolName args).

(* ================================================================== *)
(** ** A reference runtime for concrete evaluations

    The statements below hold for every [Runtime].  To evaluate the
    handlers on concrete inputs this module gives one instance.  It is
    partial by construction and is only ever applied inside its domain:
    - [parse_url] accepts [http://] and [https://] followed by a host of
      lower-case dot-separated labels and a path of letters, digits, [-],
      [_] and [/]; on these the [URL] constructor succeeds and reports the
      path unchanged ([/] when it is empty).  Inputs without a scheme,
      which the constructor rejects, are rejected; other inputs are
      declined as well.
    - [stringify] follows [JSON.stringify] on [null], booleans, strings,
      arrays, objects, and numbers that are integers below [10^21] in
      magnitude, not finite, or NaN. *)

Module Reference.

Fixpoint strip_prefix (p s : string) : option string :=
  match p, s with
  | EmptyString, _ => Some s
  | String a p', String b s' => if Ascii.eqb a b then strip_prefix p' s' else None
  | String _ _, EmptyString => None
  end.

Definition in_range (lo hi : nat) (c : ascii) : bool :=
  let n := nat_of_ascii c in (lo <=? n)%nat && (n <=? hi)%nat.

Definition is_lower : ascii -> bool := in_range 97 122.
Definition is_upper : ascii -> bool := in_range 65 90.

Definition path_char (c : ascii) : bool :=
  is_lower c || is_upper c || Str.is_digit c ||
  Ascii.eqb c "-"%char || Ascii.eqb c "_"%char || Ascii.eqb c "/"%char.

Fixpoint all_chars (f : ascii -> bool) (s : string) : bool :=
  match s with
  | EmptyString => true
  | String c s' => f c && all_chars f s'
  end.

(** The characters before the first [/], and the rest. *)
Fixpoint break_slash (s : string) : string * string :=
  match s with
  | EmptyString => (EmptyString, EmptyString)
  | String c s' =>
      if Ascii.eqb c "/" then (EmptyString, s)
      else let (h, r) := break_slash s' in (String c h, r)
  end.

Definition host_ok (h : string) : bool :=
  forallb (fun l => Str.nonempty l && all_chars is_lower l) (Str.split "." h).

Definition parse_url (input : string) : option URL :=
  let rest :=
    match strip_prefix "https://" input with
    | Some r => Some r
    | None => strip_prefix "http://" input
    end in
  match rest with
  | None => None
  | Some r =>
      let (host, p) := break_slash r in
      if host_ok host && all_chars path_char p
      then Some {| pathname := if Str.nonempty p then p else "/" |}
      else None
  end.

Definition int_of_float (x : float) : option Z :=
  match Prim2SF x with
  | S754_zero _ => Some 0%Z
  | S754_finite s m e =>
      let m := Z.pos m in
      let z :=
        if (0 <=? e)%Z then Some (m * 2 ^ e)%Z
        else if (m mod 2 ^ (- e) =? 0)%Z then Some (m / 2 ^ (- e))%Z
        else None in
      option_map (fun z => if s then (- z)%Z else z) z
  | _ => None
  end.

Definition number_text (x : float) : string :=
  match int_of_float x with
  | Some z => Str.of_Z z
  | None => "null"
  end.

Definition hex_digit (n : nat) : ascii :=
  if (n <? 10)%nat then ascii_of_nat (48 + n) else ascii_of_nat (87 + n).

Definition backslash : ascii := ascii_of_nat 92.

Definition escape_char (c : ascii) : string :=
  let n := nat_of_ascii c in
  let esc (l : ascii) := String backslash (String l EmptyString) in
  if (n =? 34)%nat then esc (ascii_of_nat 34)
  else if (n =? 92)%nat then esc backslash
  else if (n =? 8)%nat then esc "b"%char
  else if (n =? 9)%nat then esc "t"%char
  else if (n =? 10)%nat then esc "n"%char
  else if (n =? 12)%nat then esc "f"%char
  else if (n =? 13)%nat then esc "r"%char
  else if (n <? 32)%nat then
    String backslash
      ("u00" ++
         String (hex_digit (n / 16)) (String (hex_digit (n mod 16)) EmptyString))
  else String c EmptyString.

Fixpoint escape (s : string) : string :=
  match s with
  | EmptyString => EmptyString
  | String c s' => escape_char c ++ escape s'
  end.

Definition quote (s : string) : string := Str.quoted (escape s).

Fixpoint join (sep : string) (l : list string) : string :=
  match l with
  | [] => EmptyString
  | [x] => x
  | x :: l' => x ++ sep ++ join sep l'
  end.

Definition newline : string := String (ascii_of_nat 10) EmptyString.

(** A bracketed list of members, on one line without a gap and one
    member per line with it. *)
Definition wrap (l r gap stepback indent : string) (partial : list string) : string :=
  match partial with
  | [] => l ++ r
  | _ =>
      if Str.nonempty gap
      then l ++ newline ++ indent ++ join ("," ++ newline ++ indent) partial ++
           newline ++ stepback ++ r
      else l ++ join "," partial ++ r
  end.

(** Serialisation of a property value; [None] where [JSON.stringify]
    yields [undefined]. *)
Fixpoint serialize (gap indent : string) (v : value) {struct v} : option string :=
  match v with
  | VUndefined => None
  | VNull => Some "null"
  | VBool b => Some (if b then "true" else "false")
  | VNum x => Some (number_text x)
  | VStr s => Some (quote s)
  | VArr items =>
      let stepback := indent in
      let indent := indent ++ gap in
      let partial :=
        (fix go (l : list value) : list string :=
           match l with
           | [] => []
           | x :: l' =>
               match serialize gap indent x with
               | Some t => t
               | None => "null"
               end :: go l'
           end) items in
      Some (wrap "[" "]" gap stepback indent partial)
  | VObj fields =>
      let stepback := indent in
      let indent := indent ++ gap in
      let colon := if Str.nonempty gap then ": " else ":" in
      let partial :=
        (fix go (l : list (string * value)) : list string :=
           match l with
           | [] => []
           | (k, x) :: l' =>
               match serialize gap indent x with
               | Some t => (quote k ++ colon ++ t) :: go l'
               | None => go l'
               end
           end) fields in
      Some (wrap "{" "}" gap stepback indent partial)
  end.

(** The text a template literal or a [text] property shows for the
    result of [JSON.stringify]. *)
Definition stringify (gap : string) (v : value) : string :=
  match serialize gap EmptyString v with
  | Some t => t
  | None => "undefined"
  end.

Definition runtime : Runtime :=
  {| URL_parse := parse_url;
     JSON_stringify := stringify EmptyString;
     JSON_stringify_indent := stringify "  " |}.

Definition config : Config :=
  {| SENTRY_BASE_URL := "https://sentry.example.com"; ORG_SLUG := "acme" |}.

Definition issue_12345 : AxiosResponse :=
  {| status := 200;
     data := VObj [("id", VStr "12345"); ("title", VStr "TypeError");
                   ("count", VStr "7")] |}.

Definition not_found : exn :=
  AxiosError "Request failed with status code 404"
    (Some {| status := 404;
             data := VObj [("detail", VStr "The requested resource does not exist")] |}).

(** An upstream that knows issue 12345 and answers 404 to the rest. *)
Definition upstream : Upstream :=
  fun _ req =>
    if String.eqb (path req) "issues/12345/" then inl issue_12345
    else inr not_found.

End Reference.

(* ================================================================== *)
(** ** Vocabulary of the specification *)

(** The segments of a URL path. *)
Definition segments (p : string) : list string := Str.split "/" p.

(** [i] is the first position of [l] that holds [x]. *)
Definition first_index (l : list string) (x : string) (i : nat) : Prop :=
  nth_error l i = Some x /\ forall j, (j < i)%nat -> nth_error l j <> Some x.

(** The six tools of the specification's table of required shapes. *)
Definition spec_tool_names : list string :=
  [ "get_sentry_issue"; "list_sentry_issues"; "get_sentry_event_details";
    "update_sentry_issue_status"; "create_sentry_issue_comment";
    "list_sentry_projects" ].

(** The required fields of each tool, from the same table. *)
Definition required_fields (toolName : string) : list string :=
  if String.eqb toolName "get_sentry_issue" then ["issue_id_or_url"]
  else if String.eqb toolName "list_sentry_issues" then ["project_slug"]
  else if String.eqb toolName "get_sentry_event_details" then ["project_slug"; "event_id"]
  else if String.eqb toolName "update_sentry_issue_status" then ["issue_id"; "status"]
  else if String.eqb toolName "create_sentry_issue_comment" then ["issue_id"; "comment_text"]
  else [].

(** The tools the CallTool handler has a branch for. *)
Definition dispatched_tools : list string :=
  [ "get_sentry_issue"; "list_sentry_projects"; "list_sentry_issues";
    "get_sentry_event_details" ].

(** The shape the specification's table gives list_sentry_issues:
    [project_slug] a string, [query] absent or a string, [status] absent
    or one of the three enum values. *)
Definition spec_ListIssuesArgs (args : value) : bool :=
  is_object args && is_string (get_prop args "project_slug") &&
  (is_undefined (get_prop args "query") || is_string (get_prop args "query")) &&
  match get_prop args "status" with
  | VUndefined => true
  | VStr s => Str.includes ["resolved"; "unresolved"; "ignored"] s
  | _ => false
  end.

(* ================================================================== *)
(** ** Startup configuration *)

(** The three environment variables the module reads; [None] is an unset
    variable. *)
Record Env : Type := {
  env_SENTRY_URL : option string;
  env_SENTRY_AUTH_TOKEN : option string;
  env_SENTRY_ORG_SLUG : option string
}.

(** What the platform provides for decoding the token. *)
Record Platform : Type := {
  (** [Buffer.from(s, 'base64').toString()]. *)
  Buffer_base64 : string -> string;
  (** [JSON.parse(s)]; [None] when it throws. *)
  JSON_parse : string -> option value;
  (** The string a value becomes when it is stored in [process.env]. *)
  String_of : value -> string
}.

(** [!v] for a string or [undefined]. *)
Definition env_falsy (v : option string) : bool :=
  match v with
  | Some s => negb (Str.nonempty s)
  | None => true
  end.

Definition env_value (v : option string) : string :=
  match v with Some s => s | None => EmptyString end.

(** [s.endsWith(c)] for a one-character [c]. *)
Fixpoint endsWith (s : string) (c : ascii) : bool :=
  match s with
  | EmptyString => false
  | String x EmptyString => Ascii.eqb x c
  | String _ s' => endsWith s' c
  end.

(** [s.slice(0, -1)]. *)
Fixpoint dropLast (s : string) : string :=
  match s with
  | EmptyString => EmptyString
  | String _ EmptyString => EmptyString
  | String x s' => String x (dropLast s')
  end.

(** [SENTRY_BASE_URL], from a [SENTRY_URL] that passed the checks. *)
Definition baseUrlOf (SENTRY_URL : string) : string :=
  if endsWith SENTRY_URL "/" then dropLast SENTRY_URL else SENTRY_URL.

(** The [baseURL] given to [axios.create]. *)
Definition apiBaseURL (cfg : Config) : string := SENTRY_BASE_URL cfg ++ "/api/0/".

Definition org_slug_error : string :=
  "SENTRY_ORG_SLUG environment variable is required and could not be inferred from token.".

(** The [try] block that infers the organization from the token; [None]
    when anything in it throws.  [Buffer.from] throws on the [undefined]
    a token without a second [_]-separated part gives, [JSON.parse] on
    malformed text, the property read on a [null] payload, and the code
    itself when the payload has no truthy [org]. *)
Definition inferOrgSlug (pf : Platform) (SENTRY_AUTH_TOKEN : string) : option string :=
  match nth_error (Str.split "_" SENTRY_AUTH_TOKEN) 1 with
  | None => None
  | Some part =>
      match JSON_parse pf (Buffer_base64 pf part) with
      | None => None
      | Some tokenPayload =>
          if is_null tokenPayload then None
          else
            let org := get_prop tokenPayload "org" in
            if truthy org
            then Some (match org with VStr s => s | _ => String_of pf org end)
            else None
      end
  end.

(** The module's top-level checks: the configuration the handlers run
    with, or the message of the [Error] that aborts the process. *)
Definition startup (rt : Runtime) (pf : Platform) (env : Env) : Config + string :=
  if env_falsy (env_SENTRY_URL env) then
    inr "SENTRY_URL environment variable is required"
  else if env_falsy (env_SENTRY_AUTH_TOKEN env) then
    inr "SENTRY_AUTH_TOKEN environment variable is required"
  else
    let SENTRY_URL := env_value (env_SENTRY_URL env) in
    let SENTRY_AUTH_TOKEN := env_value (env_SENTRY_AUTH_TOKEN env) in
    let org : option string :=
      if env_falsy (env_SENTRY_ORG_SLUG env)
      then inferOrgSlug pf SENTRY_AUTH_TOKEN
      else Some (env_value (env_SENTRY_ORG_SLUG env)) in
    match org with
    | None => inr org_slug_error
    | Some org =>
        match URL_parse rt SENTRY_URL with
        | None => inr ("Invalid SENTRY_URL format: " ++ SENTRY_URL)
        | Some _ =>
            inl {| SENTRY_BASE_URL := baseUrlOf SENTRY_URL; ORG_SLUG := org |}
        end
    end.

(* ================================================================== *)
(** ** Further vocabulary *)

Fixpoint strings_of (l : list value) : list string :=
  match l with
  | [] => []
  | VStr s :: l' => s :: strings_of l'
  | _ :: l' => strings_of l'
  end.

(** The [required] array of a tool's input schema. *)
Definition schema_required (t : Tool) : list string :=
  match get_prop (inputSchema t) "required" with
  | VArr l => strings_of l
  | _ => []
  end.

(** An upstream whose rejections are never protocol errors, as those of
    an HTTP client are. *)
Definition http_failures_only (up : Upstream) : Prop :=
  forall sent req c m, up sent req <> inr (McpError c m).

(** The property names the type guards read. *)
Definition guard_fields : list string :=
  [ "issue_id_or_url"; "project_slug"; "query"; "status"; "event_id";
    "issue_id"; "comment_text" ].

(** Further reference instances for concrete evaluations. *)
Module Examples.

(** An upstream that answers every request with the same body. *)
Definition upstream_ok : Upstream :=
  fun _ _ => inl {| status := 200; data := VObj [("id", VStr "e1")] |}.

(** An upstream that cannot be reached. *)
Definition upstream_down : Upstream :=
  fun _ _ => inr (AxiosError "timeout of 20000ms exceeded" None).

Definition org_payload_text : string :=
  "{" ++ Str.quoted "org" ++ ":" ++ Str.quoted "acme" ++ "}".

(** A platform that knows one token payload, [{org: acme}], and its
    base64 form; on these it agrees with [Buffer] and [JSON.parse]. *)
Definition platform : Platform :=
  {| Buffer_base64 :=
       fun s => if String.eqb s "eyJvcmciOiJhY21lIn0=" then org_payload_text
                else EmptyString;
     JSON_parse :=
       fun s => if String.eqb s org_payload_text
                then Some (VObj [("org", VStr "acme")]) else None;
     String_of := fun v => str_of v |}.

Definition env : Env :=
  {| env_SENTRY_URL := Some "https://sentry.example.com/";
     env_SENTRY_AUTH_TOKEN := Some "sntrys_eyJvcmciOiJhY21lIn0=_secret";
     env_SENTRY_ORG_SLUG := None |}.

End Examples.

(* ================================================================== *)
(** ** Strings and lists *)

Lemma test_digits_nonempty (s : string) :
  Str.test_digits s = true -> Str.nonempty s = true.
Proof. destruct s; simpl; [discriminate | reflexivity]. Qed.

Lemma first_index_unique (l : list string) (x : string) (i j : nat) :
  first_index l x i -> first_index l x j -> i = j.
Proof.
  intros [Hi Hlti] [Hj Hltj].
  destruct (Nat.lt_trichotomy i j) as [Hlt | [Heq | Hgt]].
  - exfalso. exact (Hltj i Hlt Hi).
  - exact Heq.
  - exfalso. exact (Hlti j Hgt Hj).
Qed.

Lemma first_index_In (l : list string) (x : string) (i : nat) :
  first_index l x i -> In x l.
Proof. intros [Hi _]. exact (nth_error_In l i Hi). Qed.

Lemma indexOf_from_spec (l : list string) (x : string) :
  forall base : Z,
    (Str.indexOf_from l x base = (-1)%Z /\ ~ In x l) \/
    (exists i : nat,
        Str.indexOf_from l x base = (base + Z.of_nat i)%Z /\ first_index l x i).
Proof.
  induction l as [| y l IH]; intros base; simpl.
  - left. split; [reflexivity | tauto].
  - destruct (String.eqb y x) eqn:Hyx.
    + apply String.eqb_eq in Hyx. subst y.
      right. exists 0%nat. split; [lia |].
      split; [reflexivity | intros j Hj; lia].
    + apply String.eqb_neq in Hyx.
      destruct (IH (base + 1)%Z) as [[Hm Hn] | [i [Hi Hf]]].
      * left. split; [exact Hm | intros [H | H]; [exact (Hyx H) | exact (Hn H)]].
      * right. exists (S i). split; [lia |].
        destruct Hf as [Hnth Hlt]. split; [exact Hnth |].
        intros [| j] Hj; simpl.
        -- intros H. inversion H. exact (Hyx H1).
        -- apply Hlt. lia.
Qed.

Lemma indexOf_spec (l : list string) (x : string) :
  (Str.indexOf l x = (-1)%Z /\ ~ In x l) \/
  (exists i : nat, Str.indexOf l x = Z.of_nat i /\ first_index l x i).
Proof. exact (indexOf_from_spec l x 0%Z). Qed.

(* ================================================================== *)
(** ** The issue-id extractor *)

(** The path branch returns [d] exactly when the segment right after the
    first ["issues"] segment is [d] and is all digits. *)
Lemma issueIdOfPath_Some (p d : string) :
  issueIdOfPath p = Some d <->
  exists i : nat,
    first_index (segments p) "issues" i /\
    nth_error (segments p) (S i) = Some d /\
    Str.test_digits d = true.
Proof.
  unfold issueIdOfPath, segments.
  set (parts := Str.split "/" p).
  destruct (indexOf_spec parts "issues") as [[Hm Hn] | [i [Hi Hf]]].
  - rewrite Hm. simpl. split; [discriminate |].
    intros [i [Hf _]]. exfalso. exact (Hn (first_index_In _ _ _ Hf)).
  - rewrite Hi.
    replace (Z.of_nat i =? -1)%Z with false by (symmetry; apply Z.eqb_neq; lia).
    replace (Z.to_nat (Z.of_nat i + 1)) with (S i) by lia.
    simpl negb. cbv beta iota.
    destruct (Z.of_nat (length parts) >? Z.of_nat i + 1)%Z eqn:Hlen; simpl andb; cbv iota.
    + destruct (nth_error parts (S i)) as [q |] eqn:Hq.
      * destruct (Str.test_digits q) eqn:Hd.
        -- split.
           ++ intros H. inversion H. subst q. exists i. auto.
           ++ intros [j [Hfj [Hqj _]]].
              rewrite (first_index_unique _ _ _ _ Hfj Hf) in Hqj. congruence.
        -- split; [discriminate |].
           intros [j [Hfj [Hqj Hdj]]].
           rewrite (first_index_unique _ _ _ _ Hfj Hf) in Hqj. congruence.
      * split; [discriminate |].
        intros [j [Hfj [Hqj _]]].
        rewrite (first_index_unique _ _ _ _ Hfj Hf) in Hqj. congruence.
    + split; [discriminate |].
      intros [j [Hfj [Hqj _]]].
      rewrite (first_index_unique _ _ _ _ Hfj Hf) in Hqj.
      assert (nth_error parts (S i) = None) by (apply nth_error_None; lia).
      congruence.
Qed.

Lemma issueIdOfPath_None (p : string) :
  issueIdOfPath p = None <->
  forall i d,
    first_index (segments p) "issues" i ->
    nth_error (segments p) (S i) = Some d ->
    Str.test_digits d = false.
Proof.
  split.
  - intros H i d Hf Hd.
    destruct (Str.test_digits d) eqn:Ht; [| reflexivity].
    assert (issueIdOfPath p = Some d) by (apply issueIdOfPath_Some; eauto).
    congruence.
  - intros H. destruct (issueIdOfPath p) as [d |] eqn:E; [| reflexivity].
    apply issueIdOfPath_Some in E. destruct E as [i [Hf [Hd Ht]]].
    rewrite (H i d Hf Hd) in Ht. discriminate.
Qed.

Lemma getIssueId_nonempty (rt : Runtime) (input d : string) :
  getIssueId rt input = Some d -> Str.nonempty d = true.
Proof.
  unfold getIssueId. destruct (URL_parse rt input) as [url |].
  - intros H. apply issueIdOfPath_Some in H. destruct H as [i [_ [_ Ht]]].
    exact (test_digits_nonempty d Ht).
  - destruct (Str.test_digits input) eqn:Ht; [| discriminate].
    intros H. inversion H. subst d. exact (test_digits_nonempty input Ht).
Qed.

(** C7 (as amended).  [getIssueId] is a function of its input and of what
    the [URL] constructor makes of it, and:
    - an input of one or more decimal digits, which the constructor does
      not accept as a URL, is returned unchanged;
    - when the input parses as a URL and the segment right after the FIRST
      ["issues"] segment of its path is all digits, those digits are
      returned;
    - when it parses as a URL whose path has no ["issues"] segment, or
      whose first ["issues"] segment is not followed by an all-digit
      segment, the result is no-match;
    - a string that is neither a URL nor all digits gives no-match. *)
Theorem getIssueId_spec (rt : Runtime) (input : string) :
  (Str.test_digits input = true -> URL_parse rt input = None ->
   getIssueId rt input = Some input) /\
  (forall url i d,
      URL_parse rt input = Some url ->
      first_index (segments (pathname url)) "issues" i ->
      nth_error (segments (pathname url)) (S i) = Some d ->
      Str.test_digits d = true ->
      getIssueId rt input = Some d) /\
  (forall url,
      URL_parse rt input = Some url ->
      (~ In "issues" (segments (pathname url)) \/
       forall i d,
         first_index (segments (pathname url)) "issues" i ->
         nth_error (segments (pathname url)) (S i) = Some d ->
         Str.test_digits d = false) ->
      getIssueId rt input = None) /\
  (URL_parse rt input = None -> Str.test_digits input = false ->
   getIssueId rt input = None).
Proof.
  unfold getIssueId. repeat split.
  - intros Hd Hp. rewrite Hp, Hd. reflexivity.
  - intros url i d Hp Hf Hn Hd. rewrite Hp.
    apply issueIdOfPath_Some. exists i. auto.
  - intros url Hp H. rewrite Hp. apply issueIdOfPath_None.
    destruct H as [Hno | Hbad].
    + intros i d Hf _. exfalso. exact (Hno (first_index_In _ _ _ Hf)).
    + exact Hbad.
  - intros Hp Hd. rewrite Hp, Hd. reflexivity.
Qed.

(** The four cases of the extractor at concrete inputs. *)
Lemma getIssueId_spec_witness :
  getIssueId Reference.runtime "12345" = Some "12345" /\
  getIssueId Reference.runtime
    "https://sentry.example.com/organizations/acme/issues/12345/" = Some "12345" /\
  getIssueId Reference.runtime "https://sentry.example.com/issues/" = None /\
  getIssueId Reference.runtime "not-an-id" = None.
Proof.
  split; [| split; [| split]].
  - apply (proj1 (getIssueId_spec Reference.runtime "12345")); reflexivity.
  - apply (proj1 (proj2 (getIssueId_spec Reference.runtime
             "https://sentry.example.com/organizations/acme/issues/12345/"))
             {| pathname := "/organizations/acme/issues/12345/" |} 3%nat "12345").
    + reflexivity.
    + split; [reflexivity |].
      intros j Hj.
      destruct j as [| [| [| j]]]; simpl; try discriminate. lia.
    + reflexivity.
    + reflexivity.
  - apply (proj1 (proj2 (proj2 (getIssueId_spec Reference.runtime
             "https://sentry.example.com/issues/")))
             {| pathname := "/issues/" |}).
    + reflexivity.
    + right. intros i d [Hi Hlt] Hd.
      destruct i as [| [| i]].
      * simpl in Hi. discriminate.
      * simpl in Hd. inversion Hd. reflexivity.
      * exfalso. apply (Hlt 1%nat); [lia | reflexivity].
  - apply (proj2 (proj2 (proj2 (getIssueId_spec Reference.runtime "not-an-id"))));
      reflexivity.
Defined.

(** C7, as stated, fails: the path of this URL has an ["issues"] segment
    (the fourth) immediately followed by the all-digit segment ["123"],
    yet the extractor reports no match, because the segment after the
    first ["issues"] is ["abc"]. *)
Lemma getIssueId_later_issues_segment_ignored :
  URL_parse Reference.runtime "https://sentry.example.com/issues/abc/issues/123"
    = Some {| pathname := "/issues/abc/issues/123" |} /\
  segments "/issues/abc/issues/123" = [EmptyString; "issues"; "abc"; "issues"; "123"] /\
  nth_error (segments "/issues/abc/issues/123") 3 = Some "issues" /\
  nth_error (segments "/issues/abc/issues/123") 4 = Some "123" /\
  Str.test_digits "123" = true /\
  getIssueId Reference.runtime "https://sentry.example.com/issues/abc/issues/123" = None.
Proof. repeat split. Qed.

(** C10.  When the input parses as a URL, only the first ["issues"]
    segment of the path is consulted: if the segment right after it is
    missing or not all digits the result is no-match, whatever follows;
    any identifier returned is that segment; and the result is the path
    branch's, so the raw-digit test on the input is never applied. *)
Theorem getIssueId_first_issues_only (rt : Runtime) (input : string) (url : URL) :
  URL_parse rt input = Some url ->
  (forall i,
      first_index (segments (pathname url)) "issues" i ->
      (forall d, nth_error (segments (pathname url)) (S i) = Some d ->
                 Str.test_digits d = false) ->
      getIssueId rt input = None) /\
  (forall d,
      getIssueId rt input = Some d ->
      exists i, first_index (segments (pathname url)) "issues" i /\
                nth_error (segments (pathname url)) (S i) = Some d) /\
  getIssueId rt input = issueIdOfPath (pathname url).
Proof.
  intros Hp. unfold getIssueId. rewrite Hp. repeat split.
  - intros i Hf Hbad. apply issueIdOfPath_None.
    intros j d Hfj Hd. rewrite (first_index_unique _ _ _ _ Hfj Hf) in Hd.
    exact (Hbad d Hd).
  - intros d H. apply issueIdOfPath_Some in H.
    destruct H as [i [Hf [Hd _]]]. exists i. auto.
Qed.

(** A URL whose second ["issues"] segment is followed by digits, and
    whose first one is not. *)
Lemma getIssueId_first_issues_only_witness :
  URL_parse Reference.runtime "https://sentry.example.com/issues/abc/issues/123"
    = Some {| pathname := "/issues/abc/issues/123" |} /\
  getIssueId Reference.runtime "https://sentry.example.com/issues/abc/issues/123" = None.
Proof.
  split; [reflexivity |].
  apply (proj1 (getIssueId_first_issues_only Reference.runtime
           "https://sentry.example.com/issues/abc/issues/123"
           {| pathname := "/issues/abc/issues/123" |} eq_refl) 1%nat).
  - split; [reflexivity |].
    intros j Hj. destruct j as [| j]; simpl; [discriminate | lia].
  - intros d Hd. simpl in Hd. inversion Hd. reflexivity.
Defined.

(* ================================================================== *)
(** ** Running handlers *)

Lemma run_bind {A B : Type} (up : Upstream) (p : Async A) (f : A -> Async B) :
  forall sent,
    run up sent (bind p f) =
    match run up sent p with
    | (sent', Returned a) => run up sent' (f a)
    | (sent', Threw e) => (sent', Threw e)
    end.
Proof.
  induction p as [a | e | req k IH]; intros sent; simpl; try reflexivity.
  apply IH.
Qed.

Lemma run_try_catch {A : Type} (up : Upstream) (p : Async A) (h : exn -> Async A) :
  forall sent,
    run up sent (try_catch p h) =
    match run up sent p with
    | (sent', Returned a) => (sent', Returned a)
    | (sent', Threw e) => run up sent' (h e)
    end.
Proof.
  induction p as [a | e | req k IH]; intros sent; simpl; try reflexivity.
  apply IH.
Qed.

Lemma run_await_get (up : Upstream) (req : Request) (sent : list Request) :
  run up sent (await_get req) =
  ((sent ++ [req])%list,
   match up sent req with
   | inl resp => Returned resp
   | inr e => Threw e
   end).
Proof. simpl. destruct (up sent req); reflexivity. Qed.

Section HandlerFacts.

Context (rt : Runtime) (cfg : Config) (up : Upstream).

(** What [call] computes, by the two blocks of the handler. *)
Lemma call_unfold (toolName : string) (args : value) :
  call rt cfg up toolName args =
  match run up [] (callTool_try rt cfg toolName args) with
  | (sent, Returned r) => (sent, Returned r)
  | (sent, Threw e) => run up sent (classify rt toolName e)
  end.
Proof. unfold call, callTool. apply run_try_catch. Qed.

Lemma classify_sends_nothing (toolName : string) (e : exn) (sent : list Request) :
  fst (run up sent (classify rt toolName e)) = sent.
Proof. destruct e; reflexivity. Qed.

(** A protocol error thrown before any request leaves the handler
    unchanged. *)
Lemma call_throw_mcp (toolName : string) (args : value) (c : ErrorCode) (m : string) :
  callTool_try rt cfg toolName args = throw (McpError c m) ->
  call rt cfg up toolName args = ([], Threw (McpError c m)).
Proof. intros H. rewrite call_unfold, H. reflexivity. Qed.

Lemma missing_not_string (args : value) (f : string) :
  get_prop args f = VUndefined -> is_string (get_prop args f) = false.
Proof. intros H. rewrite H. reflexivity. Qed.

(** For each tool the handler has a branch for, arguments lacking a
    required field are answered by the InvalidParams protocol error,
    before any upstream request. *)
Lemma dispatched_missing_field (toolName : string) (args : value) (f : string) :
  In toolName dispatched_tools ->
  In f (required_fields toolName) ->
  get_prop args f = VUndefined ->
  call rt cfg up toolName args =
  ([], Threw (McpError InvalidParams ("Invalid args for " ++ toolName ++ "."))).
Proof.
  intros Ht Hf Hmiss. apply missing_not_string in Hmiss.
  simpl in Ht.
  destruct Ht as [Ht | [Ht | [Ht | [Ht | []]]]]; subst toolName;
    simpl in Hf; repeat (destruct Hf as [Hf | Hf]; [subst f |]); try contradiction;
    apply call_throw_mcp; unfold callTool_try; simpl String.eqb; cbv iota.
  - unfold isValidGetIssueArgs. rewrite Hmiss, andb_false_r. reflexivity.
  - unfold isValidListIssuesArgs. rewrite Hmiss, andb_false_r. reflexivity.
  - unfold isValidGetEventArgs. rewrite Hmiss, andb_false_r. reflexivity.
  - unfold isValidGetEventArgs. rewrite Hmiss, andb_false_r. reflexivity.
Qed.

End HandlerFacts.

(* ================================================================== *)
(** ** The tool catalog and the tools without a branch *)

(** C2 (the code departs from it).  The discovery operation returns a
    static catalog of four tools: the two tools
    [update_sentry_issue_status] and [create_sentry_issue_comment] of the
    specification's table are not in it, so its names are a proper part of
    the six the specification enumerates. *)
Theorem listTools_names :
  map name listTools =
    ["get_sentry_issue"; "list_sentry_projects"; "list_sentry_issues";
     "get_sentry_event_details"] /\
  ~ In "update_sentry_issue_status" (map name listTools) /\
  ~ In "create_sentry_issue_comment" (map name listTools) /\
  In "update_sentry_issue_status" spec_tool_names /\
  In "create_sentry_issue_comment" spec_tool_names /\
  (forall n, In n (map name listTools) -> In n spec_tool_names).
Proof.
  split; [reflexivity |].
  split; [simpl; intros H; repeat (destruct H as [H | H]; [discriminate |]); exact H |].
  split; [simpl; intros H; repeat (destruct H as [H | H]; [discriminate |]); exact H |].
  split; [simpl; tauto |].
  split; [simpl; tauto |].
  simpl. intros n H.
  repeat (destruct H as [H | H]; [subst n; tauto |]). contradiction.
Qed.

(** C1 (the code departs from it).  [update_sentry_issue_status] and
    [create_sentry_issue_comment] have a type guard but no branch in the
    handler: invoked without the required [issue_id], which their guards
    reject, they are answered by MethodNotFound, not InvalidParams. *)
Theorem undispatched_tools_missing_field (rt : Runtime) (cfg : Config) (up : Upstream) :
  In "issue_id" (required_fields "update_sentry_issue_status") /\
  get_prop (VObj [("status", VStr "resolved")]) "issue_id" = VUndefined /\
  isValidUpdateIssueArgs (VObj [("status", VStr "resolved")]) = false /\
  call rt cfg up "update_sentry_issue_status" (VObj [("status", VStr "resolved")]) =
    ([], Threw (McpError MethodNotFound "Unknown tool: update_sentry_issue_status")) /\
  In "issue_id" (required_fields "create_sentry_issue_comment") /\
  get_prop (VObj [("comment_text", VStr "seen")]) "issue_id" = VUndefined /\
  isValidCreateCommentArgs (VObj [("comment_text", VStr "seen")]) = false /\
  call rt cfg up "create_sentry_issue_comment" (VObj [("comment_text", VStr "seen")]) =
    ([], Threw (McpError MethodNotFound "Unknown tool: create_sentry_issue_comment")).
Proof.
  repeat split; simpl; tauto.
Qed.

(* ================================================================== *)
(** ** Object updates *)

Lemma string_app_assoc (a b c : string) : (a ++ b) ++ c = a ++ b ++ c.
Proof. induction a as [| x a IH]; simpl; [reflexivity | now rewrite IH]. Qed.

Lemma lookup_set_prop_same (fs : props) (k : string) (v : value) :
  lookup (set_prop fs k v) k = Some v.
Proof.
  induction fs as [| [k' v'] fs IH]; simpl.
  - now rewrite String.eqb_refl.
  - destruct (String.eqb k' k) eqn:E; simpl; rewrite E; [reflexivity | exact IH].
Qed.

Lemma lookup_set_prop_other (fs : props) (k k' : string) (v : value) :
  k' <> k -> lookup (set_prop fs k v) k' = lookup fs k'.
Proof.
  intros Hne. induction fs as [| [k0 v0] fs IH]; simpl.
  - apply String.eqb_neq in Hne. rewrite String.eqb_sym, Hne. reflexivity.
  - destruct (String.eqb k0 k) eqn:E; simpl.
    + apply String.eqb_eq in E. subst k0.
      assert (String.eqb k k' = false) as ->
          by (apply String.eqb_neq; congruence).
      reflexivity.
    + destruct (String.eqb k0 k'); [reflexivity | exact IH].
Qed.

(** Without a [latest_event] of its own, the payload's fields are kept
    in order and the placeholder comes last. *)
Lemma set_prop_fresh (fs : props) (k : string) (v : value) :
  lookup fs k = None -> set_prop fs k v = (fs ++ [(k, v)])%list.
Proof.
  induction fs as [| [k' v'] fs IH]; simpl; [reflexivity |].
  destruct (String.eqb k' k); [discriminate |].
  intros H. now rewrite (IH H).
Qed.

(* ================================================================== *)
(** ** get_sentry_issue *)

(** C3.  When the arguments are valid, the identifier is extracted, the
    issue fetch succeeds and the latest-event fetch fails (with any
    failure whatsoever), the handler returns a ToolResult that is not an
    error and whose single text item is the serialisation of the issue
    payload's properties together with [latest_event: null]; both requests
    were made and nothing is thrown. *)
Theorem get_sentry_issue_event_failure
    (rt : Runtime) (cfg : Config) (up : Upstream)
    (args : value) (issueId : string) (issueResponse : AxiosResponse)
    (eventError : exn) :
  let issueRequest := get ("issues/" ++ issueId ++ "/") in
  let eventRequest :=
    get ("organizations/" ++ ORG_SLUG cfg ++ "/issues/" ++ issueId ++
         "/events/latest/") in
  isValidGetIssueArgs args = true ->
  getIssueId rt (str_of (get_prop args "issue_id_or_url")) = Some issueId ->
  up [] issueRequest = inl issueResponse ->
  up [issueRequest] eventRequest = inr eventError ->
  exists combinedData : props,
    call rt cfg up "get_sentry_issue" args =
      ([issueRequest; eventRequest],
       Returned {| content :=
                     [ {| type := "text";
                          text := JSON_stringify_indent rt (VObj combinedData) |} ];
                   isError := None |}) /\
    (forall r, snd (call rt cfg up "get_sentry_issue" args) = Returned r ->
               is_error r = false) /\
    lookup combinedData "latest_event" = Some VNull /\
    (forall k, k <> "latest_event" ->
               lookup combinedData k = lookup (spread (data issueResponse)) k) /\
    (forall fs, data issueResponse = VObj fs -> lookup fs "latest_event" = None ->
                combinedData = (fs ++ [("latest_event", VNull)])%list).
Proof.
  intros issueRequest eventRequest Hvalid Hid Hissue Hevent.
  exists (set_prop (spread (data issueResponse)) "latest_event" VNull).
  assert (call rt cfg up "get_sentry_issue" args =
          ([issueRequest; eventRequest],
           Returned (text_result
             (JSON_stringify_indent rt
                (VObj (set_prop (spread (data issueResponse)) "latest_event" VNull))))))
    as Hcall.
  { rewrite call_unfold. unfold callTool_try. simpl String.eqb. cbv iota.
    rewrite Hvalid. simpl negb. cbv iota.
    rewrite Hid, (getIssueId_nonempty _ _ _ Hid).
    rewrite run_bind, run_await_get. fold issueRequest. rewrite Hissue.
    rewrite run_bind, run_try_catch, run_bind, run_await_get.
    simpl app. fold eventRequest. rewrite Hevent. reflexivity. }
  split; [exact Hcall |].
  split; [rewrite Hcall; simpl; intros r Hr; inversion Hr; reflexivity |].
  split; [apply lookup_set_prop_same |].
  split; [intros k Hk; apply lookup_set_prop_other; exact Hk |].
  intros fs Hfs Hnone. rewrite Hfs. simpl spread. apply set_prop_fresh. exact Hnone.
Qed.

(** Issue 12345, whose latest event the upstream does not have. *)
Lemma get_sentry_issue_event_failure_witness :
  exists combinedData : props,
    call Reference.runtime Reference.config Reference.upstream "get_sentry_issue"
         (VObj [("issue_id_or_url", VStr "12345")]) =
      ([get "issues/12345/"; get "organizations/acme/issues/12345/events/latest/"],
       Returned {| content :=
                     [ {| type := "text";
                          text := JSON_stringify_indent Reference.runtime
                                    (VObj combinedData) |} ];
                   isError := None |}) /\
    combinedData =
      [("id", VStr "12345"); ("title", VStr "TypeError"); ("count", VStr "7");
       ("latest_event", VNull)].
Proof.
  destruct (get_sentry_issue_event_failure
              Reference.runtime Reference.config Reference.upstream
              (VObj [("issue_id_or_url", VStr "12345")]) "12345"
              Reference.issue_12345 Reference.not_found
              eq_refl eq_refl eq_refl eq_refl)
    as [combinedData [Hcall [_ [_ [_ Hfresh]]]]].
  exists combinedData. split; [exact Hcall |].
  exact (Hfresh _ eq_refl eq_refl).
Defined.

(* ================================================================== *)
(** ** The error classifier *)

(** C4.  For an upstream failure that carries a response, the classifier
    returns an error ToolResult whose only content item is: the
    permission-denied message naming the tool when the status is 401 or
    403; the not-found message naming the tool when it is 404; and for
    every other status the composed message with the tool name, the
    transport message, the status and the serialised body. *)
Theorem classify_upstream_response
    (rt : Runtime) (toolName message : string) (r : AxiosResponse) :
  ((status r = 401 \/ status r = 403)%Z ->
   classify rt toolName (AxiosError message (Some r)) =
   Resolve {| content :=
                [ {| type := "text";
                     text := "Sentry API permission denied for " ++ toolName ++
                             ". Check auth token validity and permissions." |} ];
              isError := Some true |}) /\
  (status r = 404%Z ->
   classify rt toolName (AxiosError message (Some r)) =
   Resolve {| content :=
                [ {| type := "text";
                     text := "Sentry resource not found for " ++ toolName ++
                             ". Check IDs/slugs." |} ];
              isError := Some true |}) /\
  (status r <> 401%Z -> status r <> 403%Z -> status r <> 404%Z ->
   classify rt toolName (AxiosError message (Some r)) =
   Resolve {| content :=
                [ {| type := "text";
                     text := "Sentry API error for " ++ toolName ++ ": " ++ message ++
                             " Status: " ++ Str.of_Z (status r) ++
                             ". Response: " ++ JSON_stringify rt (data r) |} ];
              isError := Some true |}).
Proof.
  unfold classify, error_result. repeat split.
  - intros [H | H]; rewrite H; reflexivity.
  - intros H. rewrite H. reflexivity.
  - intros H1 H3 H4.
    apply Z.eqb_neq in H1, H3, H4. rewrite H1, H3, H4. simpl orb. cbv iota.
    assert (forall x : string, (if (status r >=? 400)%Z && (status r <? 500)%Z
                                then x else x) = x) as Hsame
        by (intros x; destruct ((status r >=? 400)%Z && (status r <? 500)%Z); reflexivity).
    rewrite Hsame, !string_app_assoc. reflexivity.
Qed.

(** The classifier at the statuses 401, 403, 404 and 500. *)
Lemma classify_upstream_response_witness :
  classify Reference.runtime "list_sentry_projects"
    (AxiosError "Request failed with status code 401"
       (Some {| status := 401; data := VNull |})) =
  Resolve (error_result
    "Sentry API permission denied for list_sentry_projects. Check auth token validity and permissions.") /\
  classify Reference.runtime "list_sentry_projects"
    (AxiosError "Request failed with status code 403"
       (Some {| status := 403; data := VNull |})) =
  Resolve (error_result
    "Sentry API permission denied for list_sentry_projects. Check auth token validity and permissions.") /\
  classify Reference.runtime "get_sentry_event_details"
    (AxiosError "Request failed with status code 404"
       (Some {| status := 404; data := VNull |})) =
  Resolve (error_result
    "Sentry resource not found for get_sentry_event_details. Check IDs/slugs.") /\
  classify Reference.runtime "list_sentry_issues"
    (AxiosError "Request failed with status code 500"
       (Some {| status := 500; data := VNull |})) =
  Resolve (error_result
    "Sentry API error for list_sentry_issues: Request failed with status code 500 Status: 500. Response: null").
Proof.
  split; [| split; [| split]].
  - apply (proj1 (classify_upstream_response Reference.runtime "list_sentry_projects"
             "Request failed with status code 401" {| status := 401; data := VNull |})).
    left. reflexivity.
  - apply (proj1 (classify_upstream_response Reference.runtime "list_sentry_projects"
             "Request failed with status code 403" {| status := 403; data := VNull |})).
    right. reflexivity.
  - apply (proj1 (proj2 (classify_upstream_response Reference.runtime
             "get_sentry_event_details"
             "Request failed with status code 404" {| status := 404; data := VNull |}))).
    reflexivity.
  - apply (proj2 (proj2 (classify_upstream_response Reference.runtime
             "list_sentry_issues"
             "Request failed with status code 500" {| status := 500; data := VNull |})));
      simpl; lia.
Defined.

(** C5.  A failure that is already a protocol error is re-thrown by the
    classifier unchanged; every other failure becomes an error ToolResult
    with exactly one text item.  The same holds of the whole handler: a
    result of the [try] block is returned as it is, a protocol error it
    throws leaves the handler unchanged, and any other failure is
    answered by an error ToolResult. *)
Theorem classify_protocol_errors (rt : Runtime) (cfg : Config) (up : Upstream) :
  (forall toolName c m,
      classify rt toolName (McpError c m) = Reject (McpError c m)) /\
  (forall toolName e,
      (forall c m, e <> McpError c m) ->
      exists msg,
        classify rt toolName e =
        Resolve {| content := [ {| type := "text"; text := msg |} ];
                   isError := Some true |}) /\
  (forall toolName args,
      match run up [] (callTool_try rt cfg toolName args) with
      | (sent, Returned r) => call rt cfg up toolName args = (sent, Returned r)
      | (sent, Threw (McpError c m)) =>
          call rt cfg up toolName args = (sent, Threw (McpError c m))
      | (sent, Threw _) =>
          exists msg,
            call rt cfg up toolName args =
            (sent, Returned {| content := [ {| type := "text"; text := msg |} ];
                               isError := Some true |})
      end).
Proof.
  assert (forall toolName e,
             (forall c m, e <> McpError c m) ->
             exists msg, classify rt toolName e = Resolve (error_result msg)) as Hother.
  { intros toolName e Hne. destruct e as [message response | c m | message | v].
    - unfold classify. eexists. reflexivity.
    - exfalso. exact (Hne c m eq_refl).
    - eexists. reflexivity.
    - eexists. reflexivity. }
  split; [reflexivity |].
  split; [exact Hother |].
  intros toolName args. rewrite call_unfold.
  destruct (run up [] (callTool_try rt cfg toolName args)) as [sent [r | e]];
    [reflexivity |].
  destruct e as [message response | c m | message | v]; try reflexivity.
  - destruct (Hother toolName (AxiosError message response)) as [msg Hmsg];
      [discriminate |].
    exists msg. rewrite Hmsg. reflexivity.
  - exists message. reflexivity.
  - eexists. reflexivity.
Qed.

(** An invalid-arguments failure, which leaves the handler as it was
    thrown, and a generic failure, which becomes an error result. *)
Lemma classify_protocol_errors_witness :
  call Reference.runtime Reference.config Reference.upstream
       "get_sentry_issue" (VObj []) =
    ([], Threw (McpError InvalidParams "Invalid args for get_sentry_issue.")) /\
  exists msg,
    classify Reference.runtime "get_sentry_issue" (Error "socket hang up") =
    Resolve {| content := [ {| type := "text"; text := msg |} ];
               isError := Some true |}.
Proof.
  split.
  - exact (proj2 (proj2 (classify_protocol_errors
             Reference.runtime Reference.config Reference.upstream))
             "get_sentry_issue" (VObj [])).
  - apply (proj1 (proj2 (classify_protocol_errors
             Reference.runtime Reference.config Reference.upstream))).
    intros c m. discriminate.
Defined.

(* ================================================================== *)
(** ** list_sentry_issues *)

Section ListIssues.

Context (rt : Runtime) (cfg : Config) (up : Upstream).

(** For validated arguments the branch makes exactly one request, with
    the parameters [listIssuesParams] builds. *)
Lemma call_list_sentry_issues (args : value) :
  isValidListIssuesArgs args = true ->
  fst (call rt cfg up "list_sentry_issues" args) =
  [issuesRequest cfg args (listIssuesParams args)].
Proof.
  intros Hvalid. rewrite call_unfold. unfold callTool_try.
  simpl String.eqb. cbv iota. rewrite Hvalid. simpl negb. cbv iota.
  rewrite run_bind, run_await_get. fold (issuesRequest cfg args (listIssuesParams args)).
  destruct (up [] (issuesRequest cfg args (listIssuesParams args))) as [resp | e].
  - reflexivity.
  - rewrite classify_sends_nothing. reflexivity.
Qed.

Lemma nonempty_neq (s : string) : s <> EmptyString -> Str.nonempty s = true.
Proof. destruct s; [congruence | reflexivity]. Qed.

(** The parameters for a non-empty query and a non-empty status. *)
Lemma listIssuesParams_both (args : value) (q s : string) :
  get_prop args "query" = VStr q -> q <> EmptyString ->
  get_prop args "status" = VStr s -> s <> EmptyString ->
  listIssuesParams args = [("query", q ++ " " ++ "is:" ++ s)].
Proof.
  intros Hq Hqn Hs Hsn. unfold listIssuesParams.
  rewrite Hq, Hs. simpl truthy. rewrite (nonempty_neq q Hqn), (nonempty_neq s Hsn).
  simpl. rewrite (nonempty_neq q Hqn), string_app_assoc. reflexivity.
Qed.

(** The parameters for a falsy query (absent or empty) and a non-empty
    status. *)
Lemma listIssuesParams_status_only (args : value) (s : string) :
  truthy (get_prop args "query") = false ->
  get_prop args "status" = VStr s -> s <> EmptyString ->
  listIssuesParams args = [("query", "is:" ++ s)].
Proof.
  intros Hq Hs Hsn. unfold listIssuesParams.
  rewrite Hq, Hs. simpl truthy. rewrite (nonempty_neq s Hsn). reflexivity.
Qed.

(** The parameters when neither field is truthy. *)
Lemma listIssuesParams_none (args : value) :
  truthy (get_prop args "query") = false ->
  truthy (get_prop args "status") = false ->
  listIssuesParams args = [].
Proof. intros Hq Hs. unfold listIssuesParams. rewrite Hq, Hs. reflexivity. Qed.

End ListIssues.

(** C6.  For validated arguments, list_sentry_issues sends the query
    parameter made of the free-text query and the status predicate joined
    by one space: query [is:unresolved] with status [ignored] gives
    [is:unresolved is:ignored]; no query with status [resolved] gives
    [is:resolved]; and in general a non-empty query [q] with a non-empty
    status [s] gives [q is:s]. *)
Theorem list_issues_query_composition
    (rt : Runtime) (cfg : Config) (up : Upstream) (args : value) :
  isValidListIssuesArgs args = true ->
  (get_prop args "query" = VStr "is:unresolved" ->
   get_prop args "status" = VStr "ignored" ->
   listIssuesParams args = [("query", "is:unresolved is:ignored")] /\
   fst (call rt cfg up "list_sentry_issues" args) =
     [issuesRequest cfg args [("query", "is:unresolved is:ignored")]]) /\
  (get_prop args "query" = VUndefined ->
   get_prop args "status" = VStr "resolved" ->
   listIssuesParams args = [("query", "is:resolved")] /\
   fst (call rt cfg up "list_sentry_issues" args) =
     [issuesRequest cfg args [("query", "is:resolved")]]) /\
  (forall q s,
      get_prop args "query" = VStr q -> q <> EmptyString ->
      get_prop args "status" = VStr s -> s <> EmptyString ->
      fst (call rt cfg up "list_sentry_issues" args) =
        [issuesRequest cfg args [("query", q ++ " " ++ "is:" ++ s)]]).
Proof.
  intros Hvalid.
  pose proof (call_list_sentry_issues rt cfg up args Hvalid) as Hcall.
  split; [| split].
  - intros Hq Hs.
    assert (listIssuesParams args = [("query", "is:unresolved is:ignored")]) as Hp
        by (rewrite (listIssuesParams_both args _ _ Hq ltac:(discriminate)
                       Hs ltac:(discriminate)); reflexivity).
    split; [exact Hp | rewrite Hcall, Hp; reflexivity].
  - intros Hq Hs.
    assert (listIssuesParams args = [("query", "is:resolved")]) as Hp.
    { rewrite (listIssuesParams_status_only args "resolved");
        [reflexivity | rewrite Hq; reflexivity | exact Hs | discriminate]. }
    split; [exact Hp | rewrite Hcall, Hp; reflexivity].
  - intros q s Hq Hqn Hs Hsn.
    rewrite Hcall, (listIssuesParams_both args q s Hq Hqn Hs Hsn). reflexivity.
Qed.

(** The two payloads of the specification's examples. *)
Lemma list_issues_query_composition_witness :
  fst (call Reference.runtime Reference.config Reference.upstream "list_sentry_issues"
         (VObj [("project_slug", VStr "web"); ("query", VStr "is:unresolved");
                ("status", VStr "ignored")])) =
    [ {| path := "projects/acme/web/issues/";
         params := [("query", "is:unresolved is:ignored")] |} ] /\
  fst (call Reference.runtime Reference.config Reference.upstream "list_sentry_issues"
         (VObj [("project_slug", VStr "web"); ("status", VStr "resolved")])) =
    [ {| path := "projects/acme/web/issues/";
         params := [("query", "is:resolved")] |} ].
Proof.
  split.
  - exact (proj2 (proj1 (list_issues_query_composition
             Reference.runtime Reference.config Reference.upstream
             (VObj [("project_slug", VStr "web"); ("query", VStr "is:unresolved");
                    ("status", VStr "ignored")]) eq_refl) eq_refl eq_refl)).
  - exact (proj2 (proj1 (proj2 (list_issues_query_composition
             Reference.runtime Reference.config Reference.upstream
             (VObj [("project_slug", VStr "web"); ("status", VStr "resolved")])
             eq_refl)) eq_refl eq_refl)).
Defined.

(** C9.  In list_sentry_issues an empty-string query is treated exactly
    as an absent one, and so is an empty-string status, whatever the other
    field holds: with an empty query and a non-empty status [s] the
    parameter sent is [is:s], with no leading space; with both empty no
    parameter is sent; with a non-empty query [q] and an empty status the
    parameter sent is [q], with nothing appended; and in general, making
    absent any of the two fields that is empty changes neither the
    parameters nor anything else about the invocation. *)
Theorem list_issues_empty_string_fields
    (rt : Runtime) (cfg : Config) (up : Upstream) (args : value) :
  isValidListIssuesArgs args = true ->
  (forall s,
      get_prop args "query" = VStr EmptyString ->
      get_prop args "status" = VStr s -> s <> EmptyString ->
      listIssuesParams args = [("query", "is:" ++ s)] /\
      fst (call rt cfg up "list_sentry_issues" args) =
        [issuesRequest cfg args [("query", "is:" ++ s)]]) /\
  (get_prop args "query" = VStr EmptyString ->
   get_prop args "status" = VStr EmptyString ->
   listIssuesParams args = [] /\
   fst (call rt cfg up "list_sentry_issues" args) = [issuesRequest cfg args []]) /\
  (forall q,
      get_prop args "query" = VStr q -> q <> EmptyString ->
      get_prop args "status" = VStr EmptyString ->
      listIssuesParams args = [("query", q)] /\
      fst (call rt cfg up "list_sentry_issues" args) =
        [issuesRequest cfg args [("query", q)]]) /\
  (forall args',
      isValidListIssuesArgs args' = true ->
      get_prop args' "project_slug" = get_prop args "project_slug" ->
      (get_prop args' "query" = get_prop args "query" \/
       (get_prop args "query" = VStr EmptyString /\
        get_prop args' "query" = VUndefined)) ->
      (get_prop args' "status" = get_prop args "status" \/
       (get_prop args "status" = VStr EmptyString /\
        get_prop args' "status" = VUndefined)) ->
      listIssuesParams args' = listIssuesParams args /\
      call rt cfg up "list_sentry_issues" args' =
        call rt cfg up "list_sentry_issues" args).
Proof.
  intros Hvalid.
  pose proof (call_list_sentry_issues rt cfg up args Hvalid) as Hcall.
  split; [| split; [| split]].
  - intros s Hq Hs Hsn.
    assert (truthy (get_prop args "query") = false) as Hfalsy
        by (rewrite Hq; reflexivity).
    pose proof (listIssuesParams_status_only args s Hfalsy Hs Hsn) as Hp.
    split; [exact Hp | rewrite Hcall, Hp; reflexivity].
  - intros Hq Hs.
    assert (listIssuesParams args = []) as Hp
        by (apply listIssuesParams_none; [rewrite Hq | rewrite Hs]; reflexivity).
    split; [exact Hp | rewrite Hcall, Hp; reflexivity].
  - intros q Hq Hqn Hs.
    assert (listIssuesParams args = [("query", q)]) as Hp.
    { unfold listIssuesParams. rewrite Hq, Hs. simpl truthy.
      rewrite (nonempty_neq q Hqn). reflexivity. }
    split; [exact Hp | rewrite Hcall, Hp; reflexivity].
  - intros args' Hvalid' Hslug Hq Hs.
    assert (listIssuesParams args' = listIssuesParams args) as Hp.
    { unfold listIssuesParams.
      destruct Hq as [Hq | [Hq Hq']]; destruct Hs as [Hs | [Hs Hs']].
      - rewrite Hq, Hs. reflexivity.
      - rewrite Hq, Hs, Hs'. reflexivity.
      - rewrite Hq, Hq', Hs. reflexivity.
      - rewrite Hq, Hq', Hs, Hs'. reflexivity. }
    split; [exact Hp |].
    unfold call, callTool, callTool_try. simpl String.eqb. cbv iota.
    rewrite Hvalid, Hvalid', Hp, Hslug. reflexivity.
Qed.

(** An empty query with status [resolved]; an empty query with an empty
    status; a query with an empty status; and the last beside the same
    payload without its status. *)
Lemma list_issues_empty_string_fields_witness :
  fst (call Reference.runtime Reference.config Reference.upstream "list_sentry_issues"
         (VObj [("project_slug", VStr "web"); ("query", VStr EmptyString);
                ("status", VStr "resolved")])) =
    [ {| path := "projects/acme/web/issues/"; params := [("query", "is:resolved")] |} ] /\
  fst (call Reference.runtime Reference.config Reference.upstream "list_sentry_issues"
         (VObj [("project_slug", VStr "web"); ("query", VStr EmptyString);
                ("status", VStr EmptyString)])) =
    [ {| path := "projects/acme/web/issues/"; params := [] |} ] /\
  fst (call Reference.runtime Reference.config Reference.upstream "list_sentry_issues"
         (VObj [("project_slug", VStr "web"); ("query", VStr "level:error");
                ("status", VStr EmptyString)])) =
    [ {| path := "projects/acme/web/issues/"; params := [("query", "level:error")] |} ] /\
  call Reference.runtime Reference.config Reference.upstream "list_sentry_issues"
       (VObj [("project_slug", VStr "web"); ("query", VStr "level:error")]) =
  call Reference.runtime Reference.config Reference.upstream "list_sentry_issues"
       (VObj [("project_slug", VStr "web"); ("query", VStr "level:error");
              ("status", VStr EmptyString)]).
Proof.
  split; [| split; [| split]].
  - refine (proj2 (proj1 (list_issues_empty_string_fields
              Reference.runtime Reference.config Reference.upstream
              (VObj [("project_slug", VStr "web"); ("query", VStr EmptyString);
                     ("status", VStr "resolved")]) eq_refl)
              "resolved" eq_refl eq_refl _)).
    discriminate.
  - exact (proj2 (proj1 (proj2 (list_issues_empty_string_fields
             Reference.runtime Reference.config Reference.upstream
             (VObj [("project_slug", VStr "web"); ("query", VStr EmptyString);
                    ("status", VStr EmptyString)]) eq_refl)) eq_refl eq_refl)).
  - refine (proj2 (proj1 (proj2 (proj2 (list_issues_empty_string_fields
              Reference.runtime Reference.config Reference.upstream
              (VObj [("project_slug", VStr "web"); ("query", VStr "level:error");
                     ("status", VStr EmptyString)]) eq_refl)))
              "level:error" eq_refl _ eq_refl)).
    discriminate.
  - refine (proj2 (proj2 (proj2 (proj2 (list_issues_empty_string_fields
              Reference.runtime Reference.config Reference.upstream
              (VObj [("project_slug", VStr "web"); ("query", VStr "level:error");
                     ("status", VStr EmptyString)]) eq_refl)))
              (VObj [("project_slug", VStr "web"); ("query", VStr "level:error")])
              eq_refl eq_refl _ _)).
    + left. reflexivity.
    + right. split; reflexivity.
Defined.

(* ================================================================== *)
(** ** The list_sentry_issues guard and the status enum *)


(** Whatever the specification's shape admits, the guard admits. *)
Lemma spec_ListIssuesArgs_accepted (args : value) :
  spec_ListIssuesArgs args = true -> isValidListIssuesArgs args = true.
Proof.
  unfold spec_ListIssuesArgs, isValidListIssuesArgs.
  rewrite !andb_true_iff. intros [[Hop Hq] Hs].
  repeat split; try tauto.
  destruct (get_prop args "status"); try discriminate; reflexivity.
Qed.

(** C8 (the code departs from it).  The guard does not check [status]
    against the enum: a payload whose status is the string [bogus], which
    is none of [resolved], [unresolved], [ignored] and which the
    specification's shape rejects, passes the guard, and the handler sends
    [is:bogus] upstream. *)
Theorem isValidListIssuesArgs_ignores_enum
    (rt : Runtime) (cfg : Config) (up : Upstream) :
  Str.includes ["resolved"; "unresolved"; "ignored"] "bogus" = false /\
  spec_ListIssuesArgs
    (VObj [("project_slug", VStr "web"); ("status", VStr "bogus")]) = false /\
  isValidListIssuesArgs
    (VObj [("project_slug", VStr "web"); ("status", VStr "bogus")]) = true /\
  fst (call rt cfg up "list_sentry_issues"
         (VObj [("project_slug", VStr "web"); ("status", VStr "bogus")])) =
    [ {| path := "projects/" ++ ORG_SLUG cfg ++ "/web/issues/";
         params := [("query", "is:bogus")] |} ].
Proof.
  split; [reflexivity |]. split; [reflexivity |]. split; [reflexivity |].
  rewrite call_list_sentry_issues by reflexivity. reflexivity.
Qed.

(* ================================================================== *)
(** ** Upstream failures through the handler *)

(** A rejected upstream call reaches the classifier: when the project
    list answers 404, list_sentry_projects returns the not-found error
    result after its single request. *)
Lemma list_sentry_projects_not_found
    (rt : Runtime) (cfg : Config) (up : Upstream) (args : value)
    (message : string) (r : AxiosResponse) :
  up [] (get ("organizations/" ++ ORG_SLUG cfg ++ "/projects/")) =
    inr (AxiosError message (Some r)) ->
  status r = 404%Z ->
  call rt cfg up "list_sentry_projects" args =
    ([get ("organizations/" ++ ORG_SLUG cfg ++ "/projects/")],
     Returned (error_result
       "Sentry resource not found for list_sentry_projects. Check IDs/slugs.")).
Proof.
  intros Hup Hstatus. rewrite call_unfold. unfold callTool_try.
  simpl String.eqb. cbv iota.
  rewrite run_bind, run_await_get, Hup.
  unfold classify. rewrite Hstatus. reflexivity.
Qed.

(* ================================================================== *)
(** ** More on splitting *)

Lemma split_not_nil (c : ascii) (s : string) : Str.split c s <> [].
Proof.
  induction s as [| x s IH]; simpl; [discriminate |].
  destruct (Ascii.eqb x c); [discriminate |].
  destruct (Str.split c s); discriminate.
Qed.

(** Splitting at a separator splits the two sides independently. *)
Lemma split_app_sep (c : ascii) (a b : string) :
  Str.split c (a ++ String c b) = (Str.split c a ++ Str.split c b)%list.
Proof.
  induction a as [| x a IH]; simpl.
  - rewrite Ascii.eqb_refl. reflexivity.
  - destruct (Ascii.eqb x c); [now rewrite IH |].
    rewrite IH.
    destruct (Str.split c a) as [| w ws] eqn:E; [| reflexivity].
    exfalso. exact (split_not_nil c a E).
Qed.

(** A string without the separator is its own single piece. *)
Lemma split_no_sep (c : ascii) (s : string) :
  Reference.all_chars (fun x => negb (Ascii.eqb x c)) s = true ->
  Str.split c s = [s].
Proof.
  induction s as [| x s IH]; simpl; [reflexivity |].
  intros H. apply andb_true_iff in H. destruct H as [Hx Hs].
  apply negb_true_iff in Hx. rewrite Hx, (IH Hs). reflexivity.
Qed.

Lemma all_digits_no_slash (d : string) :
  Str.all_digits d = true ->
  Reference.all_chars (fun x => negb (Ascii.eqb x "/")) d = true.
Proof.
  induction d as [| x d IH]; simpl; [reflexivity |].
  intros H. apply andb_true_iff in H. destruct H as [Hx Hd].
  rewrite (IH Hd), andb_true_r.
  destruct (Ascii.eqb x "/") eqn:E; [| reflexivity].
  apply Ascii.eqb_eq in E. subst x. discriminate Hx.
Qed.

Lemma test_digits_all (d : string) :
  Str.test_digits d = true -> Str.all_digits d = true.
Proof. destruct d; [discriminate | exact (fun H => H)]. Qed.

Lemma string_app_nil_r (s : string) : s ++ EmptyString = s.
Proof. induction s as [| x s IH]; simpl; [reflexivity | now rewrite IH]. Qed.

Lemma first_index_app (l1 l2 : list string) (x : string) :
  ~ In x l1 -> first_index (l1 ++ x :: l2) x (length l1).
Proof.
  intros Hno. split.
  - rewrite nth_error_app2 by lia. rewrite Nat.sub_diag. reflexivity.
  - intros j Hj H. rewrite nth_error_app1 in H by exact Hj.
    exact (Hno (nth_error_In l1 j H)).
Qed.

(** The segments of [prefix/issues/d] followed by nothing or by [/rest]. *)
Lemma segments_issue_path (prefix d tail : string) :
  Str.test_digits d = true ->
  tail = EmptyString \/ (exists rest, tail = String "/" rest) ->
  exists more,
    segments (prefix ++ "/issues/" ++ d ++ tail) =
    (segments prefix ++ "issues" :: d :: more)%list.
Proof.
  intros Hd Htail. unfold segments.
  change (prefix ++ "/issues/" ++ d ++ tail)
    with (prefix ++ String "/" ("issues" ++ String "/" (d ++ tail))).
  rewrite split_app_sep, split_app_sep.
  pose proof (split_no_sep "/" d (all_digits_no_slash d (test_digits_all d Hd))) as Hsd.
  destruct Htail as [-> | [rest ->]].
  - exists []. rewrite string_app_nil_r, Hsd. reflexivity.
  - exists (Str.split "/" rest). rewrite split_app_sep, Hsd. reflexivity.
Qed.

(* ================================================================== *)
(** ** More on the issue-id extractor *)

(** X1.  Whatever [getIssueId] returns is a non-empty string of decimal
    digits, whether it came from a URL path or from the raw input. *)
Theorem getIssueId_digits (rt : Runtime) (input d : string) :
  getIssueId rt input = Some d -> Str.test_digits d = true.
Proof.
  unfold getIssueId. destruct (URL_parse rt input) as [url |].
  - intros H. apply issueIdOfPath_Some in H. destruct H as [i [_ [_ Ht]]]. exact Ht.
  - destruct (Str.test_digits input) eqn:Ht; [| discriminate].
    intros H. inversion H. subst d. exact Ht.
Qed.

(** The identifier taken from an issue URL is all digits. *)
Lemma getIssueId_digits_witness : Str.test_digits "12345" = true.
Proof.
  exact (getIssueId_digits Reference.runtime
           "https://sentry.example.com/organizations/acme/issues/12345/" "12345"
           eq_refl).
Defined.

(** X2.  Extraction is idempotent: an extracted identifier, which the
    [URL] constructor does not accept as a URL, is extracted from itself
    unchanged. *)
Theorem getIssueId_idempotent (rt : Runtime) (input d : string) :
  getIssueId rt input = Some d ->
  URL_parse rt d = None ->
  getIssueId rt d = Some d.
Proof.
  intros H Hp.
  assert (Str.test_digits d = true) as Hd.
  { revert H. unfold getIssueId. destruct (URL_parse rt input) as [url |].
    - intros H. apply issueIdOfPath_Some in H. destruct H as [i [_ [_ Ht]]]. exact Ht.
    - destruct (Str.test_digits input) eqn:Ht; [| discriminate].
      intros H. inversion H. subst d. exact Ht. }
  unfold getIssueId. rewrite Hp, Hd. reflexivity.
Qed.

(** The identifier of an issue URL, extracted again. *)
Lemma getIssueId_idempotent_witness :
  getIssueId Reference.runtime "12345" = Some "12345".
Proof.
  exact (getIssueId_idempotent Reference.runtime
           "https://sentry.example.com/organizations/acme/issues/12345/" "12345"
           eq_refl eq_refl).
Defined.

(** X3.  For an input that parses as a URL whose path is
    [prefix/issues/d], alone or followed by [/rest], where [d] is one or
    more digits and no segment of [prefix] is ["issues"], the extractor
    returns [d]. *)
Theorem getIssueId_issue_url
    (rt : Runtime) (input : string) (url : URL) (prefix d tail : string) :
  URL_parse rt input = Some url ->
  pathname url = prefix ++ "/issues/" ++ d ++ tail ->
  ~ In "issues" (segments prefix) ->
  Str.test_digits d = true ->
  tail = EmptyString \/ (exists rest, tail = String "/" rest) ->
  getIssueId rt input = Some d.
Proof.
  intros Hp Hpath Hno Hd Htail.
  unfold getIssueId. rewrite Hp, Hpath.
  destruct (segments_issue_path prefix d tail Hd Htail) as [more Hseg].
  apply issueIdOfPath_Some. exists (length (segments prefix)).
  rewrite Hseg. split; [apply first_index_app; exact Hno |].
  split; [| exact Hd].
  rewrite nth_error_app2 by lia.
  replace (S (length (segments prefix)) - length (segments prefix))%nat with 1%nat by lia.
  reflexivity.
Qed.

(** An organization-scoped issue URL with a trailing path. *)
Lemma getIssueId_issue_url_witness :
  getIssueId Reference.runtime
    "https://sentry.example.com/organizations/acme/issues/12345/events/latest/"
  = Some "12345".
Proof.
  refine (getIssueId_issue_url Reference.runtime
            "https://sentry.example.com/organizations/acme/issues/12345/events/latest/"
            {| pathname := "/organizations/acme/issues/12345/events/latest/" |}
            "/organizations/acme" "12345" "/events/latest/"
            eq_refl eq_refl _ eq_refl _).
  - simpl. intros H. repeat (destruct H as [H | H]; [discriminate |]). exact H.
  - right. exists "events/latest/". reflexivity.
Defined.

(* ================================================================== *)
(** ** More on the type guards *)

Lemma all_digits_NilEmpty (d : Decimal.uint) :
  Str.all_digits (NilEmpty.string_of_uint d) = true.
Proof. induction d; simpl; auto. Qed.

Lemma all_digits_of_nat (n : nat) : Str.all_digits (Str.of_nat n) = true.
Proof.
  unfold Str.of_nat, NilZero.string_of_uint.
  destruct (Nat.to_uint n); try reflexivity; apply all_digits_NilEmpty.
Qed.

(** An array has no own property under a name that is not an index. *)
Lemma index_lookup_named (items : list value) (k : string) :
  Str.all_digits k = false -> forall i, index_lookup items i k = None.
Proof.
  intros Hk. induction items as [| v items IH]; intros i; simpl; [reflexivity |].
  destruct (String.eqb (Str.of_nat i) k) eqn:E; [| apply IH].
  apply String.eqb_eq in E. rewrite <- E, all_digits_of_nat in Hk. discriminate.
Qed.

Lemma get_prop_array_named (items : list value) (k : string) :
  Str.all_digits k = false -> String.eqb k "length" = false ->
  get_prop (VArr items) k = VUndefined.
Proof.
  intros Hk Hl. simpl. rewrite Hl, (index_lookup_named items k Hk). reflexivity.
Qed.

(** X4.  Every type guard rejects what is not a plain object:
    [undefined], [null], booleans, numbers, strings and arrays. *)
Theorem guards_reject_non_objects (args : value) :
  (forall fs, args <> VObj fs) ->
  isValidGetIssueArgs args = false /\
  isValidListIssuesArgs args = false /\
  isValidGetEventArgs args = false /\
  isValidUpdateIssueArgs args = false /\
  isValidCreateCommentArgs args = false.
Proof.
  intros Hno.
  destruct args as [| | b | x | s | items | fs];
    try (repeat split; reflexivity).
  - unfold isValidGetIssueArgs, isValidListIssuesArgs, isValidGetEventArgs,
      isValidUpdateIssueArgs, isValidCreateCommentArgs.
    rewrite (get_prop_array_named items "issue_id_or_url"),
            (get_prop_array_named items "project_slug"),
            (get_prop_array_named items "issue_id") by reflexivity.
    repeat split; reflexivity.
  - exfalso. exact (Hno fs eq_refl).
Qed.

(** An array holding the expected strings is still rejected. *)
Lemma guards_reject_non_objects_witness :
  isValidGetIssueArgs (VArr [VStr "12345"]) = false.
Proof.
  refine (proj1 (guards_reject_non_objects (VArr [VStr "12345"]) _)).
  intros fs. discriminate.
Defined.

Lemma is_string_VStr (v : value) :
  is_string v = true <-> exists s, v = VStr s.
Proof.
  split.
  - destruct v; try discriminate. eauto.
  - intros [s ->]. reflexivity.
Qed.

(** X5.  What each of the other four guards accepts: an object whose
    required properties are strings, and for the status update a status
    among [resolved], [ignored], [unresolved]. *)
Theorem guards_accept_iff (args : value) :
  (isValidGetIssueArgs args = true <->
   is_object args = true /\ exists s, get_prop args "issue_id_or_url" = VStr s) /\
  (isValidGetEventArgs args = true <->
   is_object args = true /\
   (exists slug, get_prop args "project_slug" = VStr slug) /\
   (exists id, get_prop args "event_id" = VStr id)) /\
  (isValidUpdateIssueArgs args = true <->
   is_object args = true /\
   (exists id, get_prop args "issue_id" = VStr id) /\
   (get_prop args "status" = VStr "resolved" \/
    get_prop args "status" = VStr "ignored" \/
    get_prop args "status" = VStr "unresolved")) /\
  (isValidCreateCommentArgs args = true <->
   is_object args = true /\
   (exists id, get_prop args "issue_id" = VStr id) /\
   (exists c, get_prop args "comment_text" = VStr c)).
Proof.
  unfold isValidGetIssueArgs, isValidGetEventArgs, isValidUpdateIssueArgs,
    isValidCreateCommentArgs.
  rewrite !andb_true_iff, !is_string_VStr.
  split; [tauto |]. split; [tauto |]. split; [| tauto].
  split.
  - intros [[[Ho Hid] _] Hst]. split; [exact Ho |]. split; [exact Hid |].
    destruct (get_prop args "status") as [| | | | s | |]; try discriminate.
    simpl in Hst. rewrite !orb_true_iff in Hst.
    destruct Hst as [H | [H | [H | H]]]; try discriminate;
      apply String.eqb_eq in H; subst s; tauto.
  - intros [Ho [Hid Hst]].
    destruct Hst as [H | [H | H]]; rewrite H; repeat split; eauto.
Qed.

(** A status update for an unknown status is not accepted, one for
    [ignored] is. *)
Lemma guards_accept_iff_witness :
  isValidUpdateIssueArgs
    (VObj [("issue_id", VStr "12345"); ("status", VStr "ignored")]) = true.
Proof.
  apply (proj2 (proj1 (proj2 (proj2 (guards_accept_iff
           (VObj [("issue_id", VStr "12345"); ("status", VStr "ignored")])))))).
  split; [reflexivity |]. split; [exists "12345"; reflexivity |].
  right. left. reflexivity.
Defined.

Lemma get_prop_set_other (fs : props) (k k' : string) (v : value) :
  k' <> k -> get_prop (VObj (set_prop fs k v)) k' = get_prop (VObj fs) k'.
Proof. intros H. simpl. now rewrite lookup_set_prop_other. Qed.

(** X6.  The guards look at their own properties only: setting any
    property that none of them reads, on any object, changes no guard's
    verdict. *)
Theorem guards_ignore_other_properties (fs : props) (k : string) (v : value) :
  ~ In k guard_fields ->
  isValidGetIssueArgs (VObj (set_prop fs k v)) = isValidGetIssueArgs (VObj fs) /\
  isValidListIssuesArgs (VObj (set_prop fs k v)) = isValidListIssuesArgs (VObj fs) /\
  isValidGetEventArgs (VObj (set_prop fs k v)) = isValidGetEventArgs (VObj fs) /\
  isValidUpdateIssueArgs (VObj (set_prop fs k v)) = isValidUpdateIssueArgs (VObj fs) /\
  isValidCreateCommentArgs (VObj (set_prop fs k v)) = isValidCreateCommentArgs (VObj fs).
Proof.
  intros Hk.
  assert (forall f, In f guard_fields ->
                    get_prop (VObj (set_prop fs k v)) f = get_prop (VObj fs) f) as Hsame.
  { intros f Hf. apply get_prop_set_other. intros ->. exact (Hk Hf). }
  unfold isValidGetIssueArgs, isValidListIssuesArgs, isValidGetEventArgs,
    isValidUpdateIssueArgs, isValidCreateCommentArgs.
  rewrite (Hsame "issue_id_or_url"), (Hsame "project_slug"), (Hsame "query"),
          (Hsame "status"), (Hsame "event_id"), (Hsame "issue_id"),
          (Hsame "comment_text") by (simpl; tauto).
  repeat split.
Qed.

(** A payload with an extra [limit] property is as valid as without it. *)
Lemma guards_ignore_other_properties_witness :
  isValidListIssuesArgs
    (VObj [("project_slug", VStr "web"); ("limit", VNum 10%float)]) = true.
Proof.
  exact (eq_trans
           (proj1 (proj2 (guards_ignore_other_properties
                            [("project_slug", VStr "web")] "limit" (VNum 10%float)
                            ltac:(simpl; intros H;
                                  repeat (destruct H as [H | H]; [discriminate |]);
                                  exact H))))
           eq_refl).
Defined.

(* ================================================================== *)
(** ** The shape of every invocation *)

Lemma run_extends {A : Type} (up : Upstream) (p : Async A) :
  forall sent, exists tail, fst (run up sent p) = (sent ++ tail)%list.
Proof.
  induction p as [a | e | req k IH]; intros sent; simpl.
  - exists []. now rewrite app_nil_r.
  - exists []. now rewrite app_nil_r.
  - destruct (IH (up sent req) (sent ++ [req])%list) as [tail Ht].
    exists (req :: tail). rewrite Ht, <- app_assoc. reflexivity.
Qed.

(** A handler that starts with a request has sent something when it ends. *)
Lemma run_HttpGet_sent {A : Type} (up : Upstream) (req : Request)
    (k : AxiosResponse + exn -> Async A) :
  fst (run up [] (HttpGet req k)) <> [].
Proof.
  simpl. destruct (run_extends up (k (up [] req)) [req]) as [tail Ht].
  rewrite Ht. discriminate.
Qed.

Section Shape.

Context (rt : Runtime) (cfg : Config) (up : Upstream).

(** What the [try] block can do: it sends at most two requests, and at
    most one unless the tool is get_sentry_issue; what it returns is a
    plain text result; what it throws is either InvalidParams or
    MethodNotFound before any request, or a rejection of the upstream
    after one. *)
Lemma callTool_try_shape (toolName : string) (args : value) :
  (length (fst (run up [] (callTool_try rt cfg toolName args))) <= 2)%nat /\
  (toolName <> "get_sentry_issue" ->
   (length (fst (run up [] (callTool_try rt cfg toolName args))) <= 1)%nat) /\
  match snd (run up [] (callTool_try rt cfg toolName args)) with
  | Returned r =>
      fst (run up [] (callTool_try rt cfg toolName args)) <> [] /\
      exists t, r = text_result t
  | Threw e =>
      (fst (run up [] (callTool_try rt cfg toolName args)) = [] /\
       exists m, e = McpError InvalidParams m \/ e = McpError MethodNotFound m) \/
      (fst (run up [] (callTool_try rt cfg toolName args)) <> [] /\
       exists sent req, up sent req = inr e)
  end.
Proof.
  unfold callTool_try.
  destruct (String.eqb toolName "get_sentry_issue") eqn:E1.
  { apply String.eqb_eq in E1.
    destruct (isValidGetIssueArgs args); simpl negb; cbv iota.
    2:{ simpl. repeat split; try lia. left. split; [reflexivity |]. eauto. }
    destruct (getIssueId rt (str_of (get_prop args "issue_id_or_url"))) as [issueId |].
    2:{ simpl. repeat split; try lia. left. split; [reflexivity |]. eauto. }
    destruct (Str.nonempty issueId).
    2:{ simpl. repeat split; try lia. left. split; [reflexivity |]. eauto. }
    rewrite run_bind, run_await_get.
    destruct (up [] (get ("issues/" ++ issueId ++ "/"))) as [resp | e] eqn:U1.
    2:{ simpl. repeat split; try lia; try congruence.
        right. split; [discriminate |]. eauto. }
    rewrite run_bind, run_try_catch, run_bind, run_await_get.
    destruct (up ([] ++ [get ("issues/" ++ issueId ++ "/")])%list
                 (get ("organizations/" ++ ORG_SLUG cfg ++ "/issues/" ++ issueId ++
                       "/events/latest/"))) as [ev | e];
      simpl; repeat split; try lia; try congruence; try discriminate; eauto. }
  apply String.eqb_neq in E1.
  destruct (String.eqb toolName "list_sentry_projects").
  { rewrite run_bind, run_await_get.
    destruct (up [] (get ("organizations/" ++ ORG_SLUG cfg ++ "/projects/")))
      as [resp | e] eqn:U; simpl; repeat split; try lia; try discriminate; eauto.
    right. split; [discriminate |]. eauto. }
  destruct (String.eqb toolName "list_sentry_issues").
  { destruct (isValidListIssuesArgs args); simpl negb; cbv iota.
    2:{ simpl. repeat split; try lia. left. split; [reflexivity |]. eauto. }
    rewrite run_bind, run_await_get.
    match goal with |- context [up [] ?r] => destruct (up [] r) as [resp | e] eqn:U end;
      simpl; repeat split; try lia; try discriminate; eauto.
    right. split; [discriminate |]. eauto. }
  destruct (String.eqb toolName "get_sentry_event_details").
  { destruct (isValidGetEventArgs args); simpl negb; cbv iota.
    2:{ simpl. repeat split; try lia. left. split; [reflexivity |]. eauto. }
    rewrite run_bind, run_await_get.
    match goal with |- context [up [] ?r] => destruct (up [] r) as [resp | e] eqn:U end;
      simpl; repeat split; try lia; try discriminate; eauto.
    right. split; [discriminate |]. eauto. }
  simpl. repeat split; try lia. left. split; [reflexivity |]. eauto.
Qed.

(** The requests of an invocation are those of its [try] block. *)
Lemma call_sent (toolName : string) (args : value) :
  fst (call rt cfg up toolName args) =
  fst (run up [] (callTool_try rt cfg toolName args)).
Proof.
  rewrite call_unfold.
  destruct (run up [] (callTool_try rt cfg toolName args)) as [sent [r | e]];
    [reflexivity | apply classify_sends_nothing].
Qed.

(** The classifier never answers with anything but a rethrown protocol
    error or an error result. *)
Lemma run_classify (toolName : string) (e : exn) (sent : list Request) :
  (exists c m, e = McpError c m /\
               run up sent (classify rt toolName e) = (sent, Threw e)) \/
  ((forall c m, e <> McpError c m) /\
   exists msg, run up sent (classify rt toolName e) = (sent, Returned (error_result msg))).
Proof.
  destruct e as [message response | c m | message | v].
  - right. split; [discriminate |]. unfold classify. eexists. reflexivity.
  - left. exists c, m. split; reflexivity.
  - right. split; [discriminate |]. eexists. reflexivity.
  - right. split; [discriminate |]. eexists. reflexivity.
Qed.

End Shape.

(* ================================================================== *)
(** ** Properties of every invocation *)

(** X7.  The catalog and the dispatcher agree: a tool name is answered by
    the MethodNotFound protocol error, before any request, exactly when it
    is not one of the advertised tools. *)
Theorem unknown_tool_iff_not_advertised
    (rt : Runtime) (cfg : Config) (up : Upstream) (toolName : string) (args : value) :
  call rt cfg up toolName args =
    ([], Threw (McpError MethodNotFound ("Unknown tool: " ++ toolName))) <->
  ~ In toolName (map name listTools).
Proof.
  split.
  - intros Hcall Hin.
    pose proof (f_equal fst Hcall) as Hsent. rewrite call_sent in Hsent. simpl in Hsent.
    pose proof (f_equal snd Hcall) as Hout. rewrite call_unfold in Hout.
    simpl in Hin.
    destruct Hin as [H | [H | [H | [H | []]]]]; subst toolName;
      unfold callTool_try in Hsent, Hout; simpl String.eqb in Hsent, Hout;
      cbv iota in Hsent, Hout.
    + destruct (isValidGetIssueArgs args); simpl negb in *; cbv iota in *;
        [| simpl in Hout; discriminate].
      destruct (getIssueId rt (str_of (get_prop args "issue_id_or_url")))
        as [issueId |]; [| simpl in Hout; discriminate].
      destruct (Str.nonempty issueId); [| simpl in Hout; discriminate].
      exact (run_HttpGet_sent up _ _ Hsent).
    + exact (run_HttpGet_sent up _ _ Hsent).
    + destruct (isValidListIssuesArgs args); simpl negb in *; cbv iota in *;
        [| simpl in Hout; discriminate].
      exact (run_HttpGet_sent up _ _ Hsent).
    + destruct (isValidGetEventArgs args); simpl negb in *; cbv iota in *;
        [| simpl in Hout; discriminate].
      exact (run_HttpGet_sent up _ _ Hsent).
  - intros Hno. apply call_throw_mcp. unfold callTool_try.
    simpl in Hno.
    assert (forall n, In n ["get_sentry_issue"; "list_sentry_projects";
                             "list_sentry_issues"; "get_sentry_event_details"] ->
                      String.eqb toolName n = false) as Hneq.
    { intros n Hn. apply String.eqb_neq. intros ->. apply Hno.
      simpl in Hn. tauto. }
    rewrite !Hneq by (simpl; tauto). reflexivity.
Qed.

(** A name outside the catalog. *)
Lemma unknown_tool_iff_not_advertised_witness :
  call Reference.runtime Reference.config Reference.upstream
       "resolve_sentry_issue" (VObj []) =
    ([], Threw (McpError MethodNotFound "Unknown tool: resolve_sentry_issue")).
Proof.
  apply (proj2 (unknown_tool_iff_not_advertised
                  Reference.runtime Reference.config Reference.upstream
                  "resolve_sentry_issue" (VObj []))).
  simpl. intros H. repeat (destruct H as [H | H]; [discriminate |]). exact H.
Defined.

(** X8.  What a tool's advertised schema requires, its guard enforces:
    for every tool of the catalog and every name in the [required] array
    of its input schema, arguments without that property are answered by
    InvalidParams before any request. *)
Theorem schema_required_enforced
    (rt : Runtime) (cfg : Config) (up : Upstream) (t : Tool) (f : string) (args : value) :
  In t listTools ->
  In f (schema_required t) ->
  get_prop args f = VUndefined ->
  call rt cfg up (name t) args =
    ([], Threw (McpError InvalidParams ("Invalid args for " ++ name t ++ "."))).
Proof.
  intros Ht Hf Hmiss.
  apply (dispatched_missing_field rt cfg up (name t) args f); [| | exact Hmiss];
    simpl in Ht; destruct Ht as [Ht | [Ht | [Ht | [Ht | []]]]]; subst t;
    simpl in *; tauto.
Qed.

(** An event lookup without its [event_id]. *)
Lemma schema_required_enforced_witness :
  call Reference.runtime Reference.config Reference.upstream
       "get_sentry_event_details" (VObj [("project_slug", VStr "web")]) =
    ([], Threw (McpError InvalidParams "Invalid args for get_sentry_event_details.")).
Proof.
  refine (schema_required_enforced
            Reference.runtime Reference.config Reference.upstream
            (nth 3 listTools {| name := EmptyString; description := EmptyString;
                                inputSchema := VNull |})
            "event_id" (VObj [("project_slug", VStr "web")]) _ _ eq_refl).
  - simpl. tauto.
  - simpl. tauto.
Defined.

(** X9.  The handler lets nothing escape but protocol errors: whatever
    the upstream does, an invocation either returns a ToolResult or throws
    an [McpError]. *)
Theorem call_throws_only_protocol_errors
    (rt : Runtime) (cfg : Config) (up : Upstream) (toolName : string) (args : value)
    (sent : list Request) (e : exn) :
  call rt cfg up toolName args = (sent, Threw e) ->
  exists c m, e = McpError c m.
Proof.
  rewrite call_unfold.
  destruct (run up [] (callTool_try rt cfg toolName args)) as [sent0 [r | e0]];
    [discriminate |].
  destruct (run_classify rt up toolName e0 sent0) as [[c [m [He Hrun]]] | [_ [msg Hrun]]];
    rewrite Hrun; intros H; inversion H; subst; eauto.
Qed.

(** The failure of an invalid call is a protocol error. *)
Lemma call_throws_only_protocol_errors_witness :
  exists c m, McpError InvalidParams "Invalid args for get_sentry_issue." = McpError c m.
Proof.
  exact (call_throws_only_protocol_errors
           Reference.runtime Reference.config Reference.upstream
           "get_sentry_issue" (VObj []) []
           (McpError InvalidParams "Invalid args for get_sentry_issue.") eq_refl).
Defined.

(** X10.  Against an upstream whose rejections are HTTP failures, a
    protocol error is only ever thrown before the first request, and it is
    InvalidParams or MethodNotFound: once a request has been made the
    invocation ends in a ToolResult. *)
Theorem call_throws_before_any_request
    (rt : Runtime) (cfg : Config) (up : Upstream) (toolName : string) (args : value)
    (sent : list Request) (e : exn) :
  http_failures_only up ->
  call rt cfg up toolName args = (sent, Threw e) ->
  sent = [] /\
  exists m, e = McpError InvalidParams m \/ e = McpError MethodNotFound m.
Proof.
  intros Hup. rewrite call_unfold.
  pose proof (callTool_try_shape rt cfg up toolName args) as [_ [_ Hshape]].
  destruct (run up [] (callTool_try rt cfg toolName args)) as [sent0 [r | e0]];
    [discriminate |].
  simpl in Hshape.
  destruct Hshape as [[Hs [m Hm]] | [_ [s [req Hrej]]]].
  - subst sent0. destruct Hm as [-> | ->]; simpl; intros H; inversion H; subst; eauto.
  - destruct (run_classify rt up toolName e0 sent0)
      as [[c [m [He _]]] | [_ [msg Hrun]]].
    + subst e0. exfalso. exact (Hup s req c m Hrej).
    + rewrite Hrun. discriminate.
Qed.

(** An invalid call against the 404 upstream. *)
Lemma call_throws_before_any_request_witness :
  @nil Request = [] /\
  exists m, McpError InvalidParams "Invalid args for list_sentry_issues." =
            McpError InvalidParams m \/
            McpError InvalidParams "Invalid args for list_sentry_issues." =
            McpError MethodNotFound m.
Proof.
  refine (call_throws_before_any_request
            Reference.runtime Reference.config Reference.upstream
            "list_sentry_issues" VUndefined []
            (McpError InvalidParams "Invalid args for list_sentry_issues.") _ eq_refl).
  intros sent req c m. unfold Reference.upstream.
  destruct (String.eqb (path req) "issues/12345/"); discriminate.
Defined.

(** X11.  Every ToolResult the handler returns has exactly one content
    item, of type text, and its [isError] is either absent or [true]; it
    is never returned without a request having been made. *)
Theorem call_result_shape
    (rt : Runtime) (cfg : Config) (up : Upstream) (toolName : string) (args : value)
    (sent : list Request) (r : ToolResult) :
  call rt cfg up toolName args = (sent, Returned r) ->
  sent <> [] /\
  (exists t, content r = [ {| type := "text"; text := t |} ]) /\
  (isError r = None \/ isError r = Some true).
Proof.
  rewrite call_unfold.
  pose proof (callTool_try_shape rt cfg up toolName args) as [_ [_ Hshape]].
  destruct (run up [] (callTool_try rt cfg toolName args)) as [sent0 [r0 | e0]];
    simpl in Hshape.
  - destruct Hshape as [Hne [t Ht]]. intros H. inversion H. subst.
    split; [exact Hne |]. split; [exists t; reflexivity | left; reflexivity].
  - destruct (run_classify rt up toolName e0 sent0)
      as [[c [m [He Hrun]]] | [Hnot [msg Hrun]]]; rewrite Hrun; [discriminate |].
    intros H. inversion H. subst.
    destruct Hshape as [[_ [m [Hm | Hm]]] | [Hne _]].
    + exfalso. exact (Hnot _ _ Hm).
    + exfalso. exact (Hnot _ _ Hm).
    + split; [exact Hne |]. split; [exists msg; reflexivity | right; reflexivity].
Qed.

(** The error result of a project listing the upstream answers with 404. *)
Lemma call_result_shape_witness :
  [get "organizations/acme/projects/"] <> [] /\
  (exists t,
      content (error_result
        "Sentry resource not found for list_sentry_projects. Check IDs/slugs.") =
      [ {| type := "text"; text := t |} ]) /\
  (isError (error_result
      "Sentry resource not found for list_sentry_projects. Check IDs/slugs.") = None \/
   isError (error_result
      "Sentry resource not found for list_sentry_projects. Check IDs/slugs.") = Some true).
Proof.
  exact (call_result_shape Reference.runtime Reference.config Reference.upstream
           "list_sentry_projects" VUndefined
           [get "organizations/acme/projects/"]
           (error_result
              "Sentry resource not found for list_sentry_projects. Check IDs/slugs.")
           eq_refl).
Defined.

(** X12.  An invocation makes at most two upstream requests, and at most
    one unless the tool is get_sentry_issue; a request carries parameters
    only for list_sentry_issues. *)
Theorem call_request_bound
    (rt : Runtime) (cfg : Config) (up : Upstream) (toolName : string) (args : value) :
  (length (fst (call rt cfg up toolName args)) <= 2)%nat /\
  (toolName <> "get_sentry_issue" ->
   (length (fst (call rt cfg up toolName args)) <= 1)%nat) /\
  (toolName <> "list_sentry_issues" ->
   forall req, In req (fst (call rt cfg up toolName args)) -> params req = []).
Proof.
  rewrite call_sent.
  pose proof (callTool_try_shape rt cfg up toolName args) as [H2 [H1 _]].
  split; [exact H2 |]. split; [exact H1 |].
  intros Hne. unfold callTool_try.
  destruct (String.eqb toolName "get_sentry_issue").
  { destruct (isValidGetIssueArgs args); simpl negb; cbv iota; [| simpl; tauto].
    destruct (getIssueId rt (str_of (get_prop args "issue_id_or_url"))) as [issueId |];
      [| simpl; tauto].
    destruct (Str.nonempty issueId); [| simpl; tauto].
    rewrite run_bind, run_await_get.
    destruct (up [] (get ("issues/" ++ issueId ++ "/"))) as [resp | e].
    2:{ simpl. intros req [<- | []]. reflexivity. }
    rewrite run_bind, run_try_catch, run_bind, run_await_get.
    match goal with |- context [up ?s ?r] => destruct (up s r) as [ev | e] end;
      simpl; intros req [<- | [<- | []]]; reflexivity. }
  destruct (String.eqb toolName "list_sentry_projects").
  { rewrite run_bind, run_await_get.
    match goal with |- context [up ?s ?r] => destruct (up s r) as [ev | e] end;
      simpl; intros req [<- | []]; reflexivity. }
  destruct (String.eqb toolName "list_sentry_issues") eqn:E.
  { apply String.eqb_eq in E. contradiction. }
  destruct (String.eqb toolName "get_sentry_event_details").
  { destruct (isValidGetEventArgs args); simpl negb; cbv iota; [| simpl; tauto].
    rewrite run_bind, run_await_get.
    match goal with |- context [up ?s ?r] => destruct (up s r) as [ev | e] end;
      simpl; intros req [<- | []]; reflexivity. }
  simpl. tauto.
Qed.

(** One request for a project listing. *)
Lemma call_request_bound_witness :
  (length (fst (call Reference.runtime Reference.config Reference.upstream
                  "list_sentry_projects" VUndefined)) <= 1)%nat.
Proof.
  refine (proj1 (proj2 (call_request_bound
            Reference.runtime Reference.config Reference.upstream
            "list_sentry_projects" VUndefined)) _).
  discriminate.
Defined.

(* ================================================================== *)
(** ** More on get_sentry_issue *)



(** X14.  When the issue fetch itself fails, get_sentry_issue makes no
    second request: the failure goes to the classifier after the one
    request, and unless it is a protocol error the invocation returns an
    error ToolResult. *)
Theorem get_sentry_issue_primary_failure
    (rt : Runtime) (cfg : Config) (up : Upstream)
    (args : value) (issueId : string) (e : exn) :
  isValidGetIssueArgs args = true ->
  getIssueId rt (str_of (get_prop args "issue_id_or_url")) = Some issueId ->
  up [] (get ("issues/" ++ issueId ++ "/")) = inr e ->
  call rt cfg up "get_sentry_issue" args =
    run up [get ("issues/" ++ issueId ++ "/")] (classify rt "get_sentry_issue" e) /\
  fst (call rt cfg up "get_sentry_issue" args) = [get ("issues/" ++ issueId ++ "/")] /\
  ((forall c m, e <> McpError c m) ->
   exists msg,
     call rt cfg up "get_sentry_issue" args =
       ([get ("issues/" ++ issueId ++ "/")],
        Returned {| content := [ {| type := "text"; text := msg |} ];
                    isError := Some true |})).
Proof.
  intros Hvalid Hid Hissue.
  assert (call rt cfg up "get_sentry_issue" args =
          run up [get ("issues/" ++ issueId ++ "/")]
              (classify rt "get_sentry_issue" e)) as Hcall.
  { rewrite call_unfold. unfold callTool_try. simpl String.eqb. cbv iota.
    rewrite Hvalid. simpl negb. cbv iota.
    rewrite Hid, (getIssueId_nonempty _ _ _ Hid).
    rewrite run_bind, run_await_get, Hissue. reflexivity. }
  split; [exact Hcall |].
  split; [rewrite Hcall; apply classify_sends_nothing |].
  intros Hnot. rewrite Hcall.
  destruct (run_classify rt up "get_sentry_issue" e [get ("issues/" ++ issueId ++ "/")])
    as [[c [m [He _]]] | [_ [msg Hrun]]].
  - exfalso. exact (Hnot c m He).
  - exists msg. exact Hrun.
Qed.

(** Issue 999, which the upstream does not have. *)
Lemma get_sentry_issue_primary_failure_witness :
  call Reference.runtime Reference.config Reference.upstream "get_sentry_issue"
       (VObj [("issue_id_or_url", VStr "999")]) =
    ([get "issues/999/"],
     Returned (error_result
       "Sentry resource not found for get_sentry_issue. Check IDs/slugs.")).
Proof.
  exact (proj1 (get_sentry_issue_primary_failure
                  Reference.runtime Reference.config Reference.upstream
                  (VObj [("issue_id_or_url", VStr "999")]) "999" Reference.not_found
                  eq_refl eq_refl eq_refl)).
Defined.

(** X15.  When no identifier can be extracted from a valid
    [issue_id_or_url], get_sentry_issue throws InvalidParams with a
    message quoting the input, and no request is made. *)
Theorem get_sentry_issue_no_identifier
    (rt : Runtime) (cfg : Config) (up : Upstream) (args : value) (input : string) :
  is_object args = true ->
  get_prop args "issue_id_or_url" = VStr input ->
  getIssueId rt input = None ->
  call rt cfg up "get_sentry_issue" args =
    ([], Threw (McpError InvalidParams ("Could not extract issue ID from: " ++ input))).
Proof.
  intros Ho Hin Hid. apply call_throw_mcp. unfold callTool_try.
  simpl String.eqb. cbv iota. unfold isValidGetIssueArgs.
  rewrite Ho, Hin. simpl. rewrite Hid. reflexivity.
Qed.

(** A project URL, which holds no issue identifier. *)
Lemma get_sentry_issue_no_identifier_witness :
  call Reference.runtime Reference.config Reference.upstream "get_sentry_issue"
       (VObj [("issue_id_or_url", VStr "https://sentry.example.com/projects/web/")]) =
    ([], Threw (McpError InvalidParams
       "Could not extract issue ID from: https://sentry.example.com/projects/web/")).
Proof.
  exact (get_sentry_issue_no_identifier
           Reference.runtime Reference.config Reference.upstream
           (VObj [("issue_id_or_url", VStr "https://sentry.example.com/projects/web/")])
           "https://sentry.example.com/projects/web/" eq_refl eq_refl eq_refl).
Defined.

(* ================================================================== *)
(** ** The single-request tools *)

(** X16.  list_sentry_projects does not look at its arguments: whatever
    they are, the invocation is the one made without arguments, a single
    request for the organization's projects, and InvalidParams is never
    thrown for them. *)
Theorem list_sentry_projects_ignores_arguments
    (rt : Runtime) (cfg : Config) (up : Upstream) (args : value) :
  call rt cfg up "list_sentry_projects" args =
    call rt cfg up "list_sentry_projects" VUndefined /\
  fst (call rt cfg up "list_sentry_projects" args) =
    [get ("organizations/" ++ ORG_SLUG cfg ++ "/projects/")] /\
  (forall resp,
      up [] (get ("organizations/" ++ ORG_SLUG cfg ++ "/projects/")) = inl resp ->
      snd (call rt cfg up "list_sentry_projects" args) =
        Returned {| content :=
                      [ {| type := "text";
                           text := JSON_stringify_indent rt (data resp) |} ];
                    isError := None |}).
Proof.
  split; [reflexivity |].
  split.
  - rewrite call_sent. unfold callTool_try. simpl String.eqb. cbv iota.
    rewrite run_bind, run_await_get.
    destruct (up [] (get ("organizations/" ++ ORG_SLUG cfg ++ "/projects/")));
      reflexivity.
  - intros resp Hup. rewrite call_unfold. unfold callTool_try.
    simpl String.eqb. cbv iota. rewrite run_bind, run_await_get, Hup. reflexivity.
Qed.

(** X17.  For valid arguments, get_sentry_event_details makes the single
    request [projects/ORG/slug/events/id/], and when it succeeds returns
    the serialised body as a result that is not an error. *)
Theorem get_sentry_event_details_success
    (rt : Runtime) (cfg : Config) (up : Upstream)
    (args : value) (slug id : string) (resp : AxiosResponse) :
  is_object args = true ->
  get_prop args "project_slug" = VStr slug ->
  get_prop args "event_id" = VStr id ->
  up [] (get ("projects/" ++ ORG_SLUG cfg ++ "/" ++ slug ++ "/events/" ++ id ++ "/")) =
    inl resp ->
  call rt cfg up "get_sentry_event_details" args =
    ([get ("projects/" ++ ORG_SLUG cfg ++ "/" ++ slug ++ "/events/" ++ id ++ "/")],
     Returned {| content :=
                   [ {| type := "text"; text := JSON_stringify_indent rt (data resp) |} ];
                 isError := None |}).
Proof.
  intros Ho Hslug Hid Hup. rewrite call_unfold. unfold callTool_try.
  simpl String.eqb. cbv iota. unfold isValidGetEventArgs.
  rewrite Ho, Hslug, Hid. simpl negb. cbv iota. simpl str_of.
  rewrite run_bind, run_await_get, Hup. reflexivity.
Qed.

(** Event e1 of project web. *)
Lemma get_sentry_event_details_success_witness :
  call Reference.runtime Reference.config Examples.upstream_ok
       "get_sentry_event_details"
       (VObj [("project_slug", VStr "web"); ("event_id", VStr "e1")]) =
    ([get "projects/acme/web/events/e1/"],
     Returned (text_result
       (JSON_stringify_indent Reference.runtime (VObj [("id", VStr "e1")])))).
Proof.
  exact (get_sentry_event_details_success
           Reference.runtime Reference.config Examples.upstream_ok
           (VObj [("project_slug", VStr "web"); ("event_id", VStr "e1")])
           "web" "e1" {| status := 200; data := VObj [("id", VStr "e1")] |}
           eq_refl eq_refl eq_refl eq_refl).
Defined.

(** A project listing against an upstream that answers. *)
Lemma list_sentry_projects_ignores_arguments_witness :
  snd (call Reference.runtime Reference.config Examples.upstream_ok
         "list_sentry_projects" (VStr "anything")) =
    Returned (text_result
      (JSON_stringify_indent Reference.runtime (VObj [("id", VStr "e1")]))).
Proof.
  exact (proj2 (proj2 (list_sentry_projects_ignores_arguments
                  Reference.runtime Reference.config Examples.upstream_ok
                  (VStr "anything")))
               {| status := 200; data := VObj [("id", VStr "e1")] |} eq_refl).
Defined.

(* ================================================================== *)
(** ** More on the list_sentry_issues parameters *)

(** X18.  A non-empty query without a status (absent or empty) is sent
    upstream unchanged, as the only parameter. *)
Theorem list_issues_query_only
    (rt : Runtime) (cfg : Config) (up : Upstream) (args : value) (q : string) :
  isValidListIssuesArgs args = true ->
  get_prop args "query" = VStr q -> q <> EmptyString ->
  truthy (get_prop args "status") = false ->
  listIssuesParams args = [("query", q)] /\
  fst (call rt cfg up "list_sentry_issues" args) =
    [issuesRequest cfg args [("query", q)]].
Proof.
  intros Hvalid Hq Hqn Hs.
  assert (listIssuesParams args = [("query", q)]) as Hp.
  { unfold listIssuesParams. rewrite Hq, Hs. simpl truthy.
    rewrite (nonempty_neq q Hqn). reflexivity. }
  split; [exact Hp |].
  rewrite (call_list_sentry_issues rt cfg up args Hvalid), Hp. reflexivity.
Qed.

(** A free-text query alone. *)
Lemma list_issues_query_only_witness :
  fst (call Reference.runtime Reference.config Reference.upstream "list_sentry_issues"
         (VObj [("project_slug", VStr "web");
                ("query", VStr "environment:production")])) =
    [ {| path := "projects/acme/web/issues/";
         params := [("query", "environment:production")] |} ].
Proof.
  refine (proj2 (list_issues_query_only
            Reference.runtime Reference.config Reference.upstream
            (VObj [("project_slug", VStr "web");
                   ("query", VStr "environment:production")])
            "environment:production" eq_refl eq_refl _ eq_refl)).
  discriminate.
Defined.



(* ================================================================== *)
(** ** An unreachable upstream *)

(** X20.  When every upstream request fails without a response (a
    timeout, a refused connection) with transport message [msg], an
    invocation either throws its protocol error before any request, or
    makes exactly one request and returns the error ToolResult
    [Sentry API error for TOOL: msg]. *)
Theorem call_upstream_unreachable
    (rt : Runtime) (cfg : Config) (up : Upstream) (toolName : string) (args : value)
    (msg : string) :
  (forall sent req, up sent req = inr (AxiosError msg None)) ->
  (exists c m, call rt cfg up toolName args = ([], Threw (McpError c m))) \/
  (exists req,
      call rt cfg up toolName args =
        ([req],
         Returned {| content :=
                       [ {| type := "text";
                            text := "Sentry API error for " ++ toolName ++ ": " ++ msg |} ];
                     isError := Some true |})).
Proof.
  intros Hdown. rewrite call_unfold. unfold callTool_try.
  destruct (String.eqb toolName "get_sentry_issue") eqn:E1.
  { apply String.eqb_eq in E1. subst toolName.
    destruct (isValidGetIssueArgs args); simpl negb; cbv iota;
      [| left; simpl; eauto].
    destruct (getIssueId rt (str_of (get_prop args "issue_id_or_url"))) as [issueId |];
      [| left; simpl; eauto].
    destruct (Str.nonempty issueId); [| left; simpl; eauto].
    right. rewrite run_bind, run_await_get, Hdown. eexists. reflexivity. }
  destruct (String.eqb toolName "list_sentry_projects").
  { right. rewrite run_bind, run_await_get, Hdown. eexists. reflexivity. }
  destruct (String.eqb toolName "list_sentry_issues").
  { destruct (isValidListIssuesArgs args); simpl negb; cbv iota;
      [| left; simpl; eauto].
    right. rewrite run_bind, run_await_get, Hdown. eexists. reflexivity. }
  destruct (String.eqb toolName "get_sentry_event_details").
  { destruct (isValidGetEventArgs args); simpl negb; cbv iota;
      [| left; simpl; eauto].
    right. rewrite run_bind, run_await_get, Hdown. eexists. reflexivity. }
  left. simpl. eauto.
Qed.

(** The projects of an upstream that times out. *)
Lemma call_upstream_unreachable_witness :
  (exists c m,
      call Reference.runtime Reference.config Examples.upstream_down
           "list_sentry_projects" VUndefined = ([], Threw (McpError c m))) \/
  (exists req,
      call Reference.runtime Reference.config Examples.upstream_down
           "list_sentry_projects" VUndefined =
        ([req],
         Returned {| content :=
                       [ {| type := "text";
                            text := "Sentry API error for " ++ "list_sentry_projects" ++
                                    ": " ++ "timeout of 20000ms exceeded" |} ];
                     isError := Some true |})).
Proof.
  exact (call_upstream_unreachable
           Reference.runtime Reference.config Examples.upstream_down
           "list_sentry_projects" VUndefined "timeout of 20000ms exceeded"
           (fun _ _ => eq_refl)).
Defined.

(* ================================================================== *)
(** ** Startup *)

Lemma endsWith_app_last (u : string) (c : ascii) :
  endsWith (u ++ String c EmptyString) c = true.
Proof.
  induction u as [| x u IH]; simpl; [apply Ascii.eqb_refl |].
  destruct (u ++ String c EmptyString) eqn:E; [| exact IH].
  destruct u; discriminate.
Qed.

Lemma dropLast_app_last (u : string) (c : ascii) :
  dropLast (u ++ String c EmptyString) = u.
Proof.
  induction u as [| x u IH]; simpl; [reflexivity |].
  destruct (u ++ String c EmptyString) eqn:E; [destruct u; discriminate |].
  now rewrite IH.
Qed.

(** X21.  One trailing slash of [SENTRY_URL] is dropped and no more: a
    URL that does not end in a slash is kept, with one slash appended it
    gives the same base URL, hence the same API base URL, and with two
    appended the base URL still ends in a slash. *)
Theorem baseUrlOf_trailing_slash (u : string) :
  endsWith u "/" = false ->
  baseUrlOf u = u /\
  baseUrlOf (u ++ "/") = u /\
  apiBaseURL {| SENTRY_BASE_URL := baseUrlOf (u ++ "/"); ORG_SLUG := EmptyString |} =
    u ++ "/api/0/" /\
  baseUrlOf (u ++ "//") = u ++ "/".
Proof.
  intros Hu. unfold baseUrlOf, apiBaseURL.
  rewrite Hu.
  change (u ++ "/") with (u ++ String "/" EmptyString).
  rewrite endsWith_app_last, dropLast_app_last.
  split; [reflexivity |]. split; [reflexivity |]. split; [reflexivity |].
  replace (u ++ "//") with ((u ++ "/") ++ String "/" EmptyString)
    by (rewrite string_app_assoc; reflexivity).
  rewrite endsWith_app_last, dropLast_app_last. reflexivity.
Qed.

(** A Sentry address with and without its trailing slash. *)
Lemma baseUrlOf_trailing_slash_witness :
  baseUrlOf "https://sentry.example.com/" = "https://sentry.example.com" /\
  baseUrlOf "https://sentry.example.com//" = "https://sentry.example.com/".
Proof.
  split.
  - exact (proj1 (proj2 (baseUrlOf_trailing_slash "https://sentry.example.com" eq_refl))).
  - exact (proj2 (proj2 (proj2
             (baseUrlOf_trailing_slash "https://sentry.example.com" eq_refl)))).
Defined.

Lemma env_falsy_false (v : option string) :
  env_falsy v = false <-> exists s, v = Some s /\ s <> EmptyString.
Proof.
  split.
  - destruct v as [[| c s] |]; try discriminate. intros _. eexists. split; [reflexivity |].
    discriminate.
  - intros [s [-> Hs]]. destruct s; [contradiction | reflexivity].
Qed.

(** X22.  Startup succeeds exactly when the URL and the token are set and
    non-empty, the URL parses, and the organization is either set and
    non-empty or inferred from the token; the configuration then holds the
    URL without one trailing slash and that organization. *)
Theorem startup_success_iff (rt : Runtime) (pf : Platform) (env : Env) (cfg : Config) :
  startup rt pf env = inl cfg <->
  exists url token,
    env_SENTRY_URL env = Some url /\ url <> EmptyString /\
    env_SENTRY_AUTH_TOKEN env = Some token /\ token <> EmptyString /\
    URL_parse rt url <> None /\
    SENTRY_BASE_URL cfg = baseUrlOf url /\
    ((exists org, env_SENTRY_ORG_SLUG env = Some org /\ org <> EmptyString /\
                  ORG_SLUG cfg = org) \/
     (env_falsy (env_SENTRY_ORG_SLUG env) = true /\
      inferOrgSlug pf token = Some (ORG_SLUG cfg))).
Proof.
  unfold startup. split.
  - destruct (env_falsy (env_SENTRY_URL env)) eqn:Eu; [discriminate |].
    destruct (env_falsy (env_SENTRY_AUTH_TOKEN env)) eqn:Et; [discriminate |].
    apply env_falsy_false in Eu, Et.
    destruct Eu as [url [Hu Hun]]. destruct Et as [token [Ht Htn]].
    rewrite Hu, Ht. simpl env_value.
    destruct (env_falsy (env_SENTRY_ORG_SLUG env)) eqn:Eo.
    + destruct (inferOrgSlug pf token) as [org |] eqn:Ei; [| discriminate].
      destruct (URL_parse rt url) eqn:Ep; [| discriminate].
      intros H. inversion H. subst cfg. exists url, token. simpl.
      do 5 (split; [first [assumption | reflexivity | congruence] |]).
      split; [reflexivity |]. right. split; [reflexivity | exact Ei].
    + apply env_falsy_false in Eo. destruct Eo as [org [Ho Hon]].
      destruct (URL_parse rt url) eqn:Ep; [| discriminate].
      intros H. inversion H. subst cfg. exists url, token. simpl.
      do 5 (split; [first [assumption | reflexivity | congruence] |]).
      split; [reflexivity |].
      left. exists org. rewrite Ho. repeat split; assumption.
  - intros [url [token [Hu [Hun [Ht [Htn [Hp [Hb Horg]]]]]]]].
    assert (env_falsy (env_SENTRY_URL env) = false) as ->
        by (apply env_falsy_false; eauto).
    assert (env_falsy (env_SENTRY_AUTH_TOKEN env) = false) as ->
        by (apply env_falsy_false; eauto).
    rewrite Hu, Ht. simpl env_value.
    destruct (URL_parse rt url) eqn:Ep; [| contradiction].
    destruct cfg as [base org0]. simpl in Hb, Horg. subst base.
    destruct Horg as [[org [Ho [Hon Heq]]] | [Hf Hi]].
    + assert (env_falsy (env_SENTRY_ORG_SLUG env) = false) as ->
          by (apply env_falsy_false; eauto).
      rewrite Ho. simpl. subst org0. reflexivity.
    + rewrite Hf, Hi. reflexivity.
Qed.

(** The example environment, whose organization comes from the token. *)
Lemma startup_success_iff_witness :
  startup Reference.runtime Examples.platform Examples.env =
    inl {| SENTRY_BASE_URL := "https://sentry.example.com"; ORG_SLUG := "acme" |}.
Proof.
  apply (proj2 (startup_success_iff Reference.runtime Examples.platform Examples.env
                  {| SENTRY_BASE_URL := "https://sentry.example.com";
                     ORG_SLUG := "acme" |})).
  exists "https://sentry.example.com/", "sntrys_eyJvcmciOiJhY21lIn0=_secret".
  repeat split; try discriminate.
  right. split; reflexivity.
Defined.

(** X23.  With a non-empty [SENTRY_ORG_SLUG] the token is never decoded:
    the outcome of startup does not depend on the platform's decoding
    functions, and on success the organization is the variable's value. *)
Theorem startup_explicit_org
    (rt : Runtime) (pf pf' : Platform) (env : Env) (org : string) :
  env_SENTRY_ORG_SLUG env = Some org -> org <> EmptyString ->
  startup rt pf env = startup rt pf' env /\
  forall cfg, startup rt pf env = inl cfg -> ORG_SLUG cfg = org.
Proof.
  intros Ho Hon. unfold startup.
  assert (env_falsy (env_SENTRY_ORG_SLUG env) = false) as ->
      by (apply env_falsy_false; eauto).
  split; [reflexivity |].
  intros cfg. rewrite Ho. simpl env_value.
  destruct (env_falsy (env_SENTRY_URL env)); [discriminate |].
  destruct (env_falsy (env_SENTRY_AUTH_TOKEN env)); [discriminate |].
  destruct (URL_parse rt (env_value (env_SENTRY_URL env))); [| discriminate].
  intros H. inversion H. reflexivity.
Qed.

(** An explicit organization with a token that holds another one. *)
Lemma startup_explicit_org_witness :
  ORG_SLUG {| SENTRY_BASE_URL := "https://sentry.example.com"; ORG_SLUG := "globex" |} =
    "globex".
Proof.
  refine (proj2 (startup_explicit_org Reference.runtime Examples.platform
                   Examples.platform
                   {| env_SENTRY_URL := Some "https://sentry.example.com";
                      env_SENTRY_AUTH_TOKEN := Some "sntrys_eyJvcmciOiJhY21lIn0=_secret";
                      env_SENTRY_ORG_SLUG := Some "globex" |}
                   "globex" eq_refl _)
                {| SENTRY_BASE_URL := "https://sentry.example.com";
                   ORG_SLUG := "globex" |} eq_refl).
  discriminate.
Defined.

(** The second [_]-separated part of a token [prefix_part], alone or
    followed by [_rest]. *)
Lemma token_second_part (prefix part tail : string) :
  Reference.all_chars (fun x => negb (Ascii.eqb x "_")) prefix = true ->
  Reference.all_chars (fun x => negb (Ascii.eqb x "_")) part = true ->
  tail = EmptyString \/ (exists rest, tail = String "_" rest) ->
  nth_error (Str.split "_" (prefix ++ String "_" (part ++ tail))) 1 = Some part.
Proof.
  intros Hprefix Hpart Htail.
  rewrite split_app_sep, (split_no_sep "_" prefix Hprefix).
  destruct Htail as [-> | [rest ->]].
  - rewrite string_app_nil_r, (split_no_sep "_" part Hpart). reflexivity.
  - rewrite split_app_sep, (split_no_sep "_" part Hpart). reflexivity.
Qed.

(** X24.  A token of the form [prefix_part] or [prefix_part_rest], with
    no underscore inside [prefix] and [part], whose [part] decodes to a
    payload with a non-empty string [org], yields that organization: with
    [SENTRY_ORG_SLUG] unset or empty and a URL that parses, startup
    succeeds with it. *)
Theorem startup_infers_org
    (rt : Runtime) (pf : Platform) (env : Env)
    (url prefix part tail org : string) (payload : value) :
  env_SENTRY_URL env = Some url -> url <> EmptyString ->
  URL_parse rt url <> None ->
  env_SENTRY_AUTH_TOKEN env = Some (prefix ++ String "_" (part ++ tail)) ->
  env_falsy (env_SENTRY_ORG_SLUG env) = true ->
  Reference.all_chars (fun x => negb (Ascii.eqb x "_")) prefix = true ->
  Reference.all_chars (fun x => negb (Ascii.eqb x "_")) part = true ->
  tail = EmptyString \/ (exists rest, tail = String "_" rest) ->
  JSON_parse pf (Buffer_base64 pf part) = Some payload ->
  get_prop payload "org" = VStr org -> org <> EmptyString ->
  inferOrgSlug pf (prefix ++ String "_" (part ++ tail)) = Some org /\
  startup rt pf env = inl {| SENTRY_BASE_URL := baseUrlOf url; ORG_SLUG := org |}.
Proof.
  intros Hu Hun Hp Ht Ho Hprefix Hpart Htail Hparse Horg Horgn.
  assert (inferOrgSlug pf (prefix ++ String "_" (part ++ tail)) = Some org) as Hinfer.
  { unfold inferOrgSlug.
    rewrite (token_second_part prefix part tail Hprefix Hpart Htail), Hparse.
    destruct payload; try discriminate Horg;
      simpl is_null; cbv iota; rewrite Horg; simpl truthy;
      rewrite (nonempty_neq org Horgn); reflexivity. }
  split; [exact Hinfer |].
  unfold startup.
  assert (env_falsy (env_SENTRY_URL env) = false) as ->
      by (apply env_falsy_false; eauto).
  assert (env_falsy (env_SENTRY_AUTH_TOKEN env) = false) as ->.
  { apply env_falsy_false. eexists. split; [exact Ht |].
    destruct prefix; discriminate. }
  rewrite Ho, Hu, Ht. simpl env_value. rewrite Hinfer.
  destruct (URL_parse rt url); [reflexivity | contradiction].
Qed.

(** The example environment's token, [sntrys_PAYLOAD_secret]. *)
Lemma startup_infers_org_witness :
  inferOrgSlug Examples.platform "sntrys_eyJvcmciOiJhY21lIn0=_secret" = Some "acme" /\
  startup Reference.runtime Examples.platform Examples.env =
    inl {| SENTRY_BASE_URL := "https://sentry.example.com"; ORG_SLUG := "acme" |}.
Proof.
  refine (startup_infers_org Reference.runtime Examples.platform Examples.env
            "https://sentry.example.com/" "sntrys" "eyJvcmciOiJhY21lIn0=" "_secret"
            "acme" (VObj [("org", VStr "acme")])
            eq_refl _ _ eq_refl eq_refl eq_refl eq_refl _ eq_refl eq_refl _);
    try discriminate.
  right. exists "secret". reflexivity.
Defined.

(** X25.  A token without an underscore has no payload part: with
    [SENTRY_ORG_SLUG] unset or empty, startup fails with the
    organization error, whatever the platform decodes and whether or not
    the URL is well formed. *)
Theorem startup_token_without_underscore
    (rt : Runtime) (pf : Platform) (env : Env) (url token : string) :
  env_SENTRY_URL env = Some url -> url <> EmptyString ->
  env_SENTRY_AUTH_TOKEN env = Some token -> token <> EmptyString ->
  env_falsy (env_SENTRY_ORG_SLUG env) = true ->
  Reference.all_chars (fun x => negb (Ascii.eqb x "_")) token = true ->
  inferOrgSlug pf token = None /\
  startup rt pf env =
    inr "SENTRY_ORG_SLUG environment variable is required and could not be inferred from token.".
Proof.
  intros Hu Hun Ht Htn Ho Htoken.
  assert (inferOrgSlug pf token = None) as Hinfer
      by (unfold inferOrgSlug; rewrite (split_no_sep "_" token Htoken); reflexivity).
  split; [exact Hinfer |].
  unfold startup.
  assert (env_falsy (env_SENTRY_URL env) = false) as ->
      by (apply env_falsy_false; eauto).
  assert (env_falsy (env_SENTRY_AUTH_TOKEN env) = false) as ->
      by (apply env_falsy_false; eauto).
  rewrite Ho, Ht. simpl env_value. rewrite Hinfer. reflexivity.
Qed.

(** A legacy token, and a URL that is not one. *)
Lemma startup_token_without_underscore_witness :
  startup Reference.runtime Examples.platform
    {| env_SENTRY_URL := Some "sentry.example.com";
       env_SENTRY_AUTH_TOKEN := Some "0123456789abcdef";
       env_SENTRY_ORG_SLUG := Some EmptyString |} =
    inr "SENTRY_ORG_SLUG environment variable is required and could not be inferred from token.".
Proof.
  refine (proj2 (startup_token_without_underscore Reference.runtime Examples.platform
            {| env_SENTRY_URL := Some "sentry.example.com";
               env_SENTRY_AUTH_TOKEN := Some "0123456789abcdef";
               env_SENTRY_ORG_SLUG := Some EmptyString |}
            "sentry.example.com" "0123456789abcdef"
            eq_refl _ eq_refl _ eq_refl eq_refl)); discriminate.
Defined.

(** X26.  Startup fails in exactly four ways, checked in this order: the
    URL is unset or empty; the token is unset or empty; the organization
    is unset or empty and cannot be inferred from the token; the URL does
    not parse.  Each has its own message. *)
Theorem startup_failure_iff (rt : Runtime) (pf : Platform) (env : Env) (msg : string) :
  startup rt pf env = inr msg <->
  (env_falsy (env_SENTRY_URL env) = true /\
   msg = "SENTRY_URL environment variable is required") \/
  (env_falsy (env_SENTRY_URL env) = false /\
   env_falsy (env_SENTRY_AUTH_TOKEN env) = true /\
   msg = "SENTRY_AUTH_TOKEN environment variable is required") \/
  (env_falsy (env_SENTRY_URL env) = false /\
   env_falsy (env_SENTRY_AUTH_TOKEN env) = false /\
   env_falsy (env_SENTRY_ORG_SLUG env) = true /\
   inferOrgSlug pf (env_value (env_SENTRY_AUTH_TOKEN env)) = None /\
   msg = "SENTRY_ORG_SLUG environment variable is required and could not be inferred from token.") \/
  (env_falsy (env_SENTRY_URL env) = false /\
   env_falsy (env_SENTRY_AUTH_TOKEN env) = false /\
   (env_falsy (env_SENTRY_ORG_SLUG env) = false \/
    inferOrgSlug pf (env_value (env_SENTRY_AUTH_TOKEN env)) <> None) /\
   URL_parse rt (env_value (env_SENTRY_URL env)) = None /\
   msg = "Invalid SENTRY_URL format: " ++ env_value (env_SENTRY_URL env)).
Proof.
  unfold startup.
  destruct (env_falsy (env_SENTRY_URL env)).
  { split.
    - intros H. inversion H. left. split; reflexivity.
    - intros [[_ ->] | [[H _] | [[H _] | [H _]]]]; [reflexivity | | |]; discriminate. }
  destruct (env_falsy (env_SENTRY_AUTH_TOKEN env)).
  { split.
    - intros H. inversion H. right. left. repeat split.
    - intros [[H _] | [[_ [_ ->]] | [[_ [H _]] | [_ [H _]]]]];
        [| reflexivity | |]; discriminate. }
  destruct (env_falsy (env_SENTRY_ORG_SLUG env)).
  - destruct (inferOrgSlug pf (env_value (env_SENTRY_AUTH_TOKEN env))) as [org |].
    + destruct (URL_parse rt (env_value (env_SENTRY_URL env))).
      * split; [discriminate |].
        intros [[H _] | [[_ [H _]] | [[_ [_ [_ [H _]]]] | [_ [_ [_ [H _]]]]]]];
          discriminate.
      * split.
        -- intros H. inversion H. right. right. right.
           repeat split. right. discriminate.
        -- intros [[H _] | [[_ [H _]] | [[_ [_ [_ [H _]]]] | [_ [_ [_ [_ ->]]]]]]];
             [| | | reflexivity]; discriminate.
    + split.
      * intros H. inversion H. right. right. left. repeat split.
      * intros [[H _] | [[_ [H _]] | [[_ [_ [_ [_ ->]]]] | [_ [_ [[H | H] _]]]]]];
          [| | reflexivity | |]; try discriminate. contradiction.
  - destruct (URL_parse rt (env_value (env_SENTRY_URL env))).
    + split; [discriminate |].
      intros [[H _] | [[_ [H _]] | [[_ [_ [H _]]] | [_ [_ [_ [H _]]]]]]];
        discriminate.
    + split.
      * intros H. inversion H. right. right. right. repeat split. left. reflexivity.
      * intros [[H _] | [[_ [H _]] | [[_ [_ [H _]]] | [_ [_ [_ [_ ->]]]]]]];
          [| | | reflexivity]; discriminate.
Qed.

(** An empty URL is reported before a missing token. *)
Lemma startup_failure_iff_witness :
  startup Reference.runtime Examples.platform
    {| env_SENTRY_URL := Some EmptyString;
       env_SENTRY_AUTH_TOKEN := None;
       env_SENTRY_ORG_SLUG := None |} =
    inr "SENTRY_URL environment variable is required".
Proof.
  apply (proj2 (startup_failure_iff Reference.runtime Examples.platform
                  {| env_SENTRY_URL := Some EmptyString;
                     env_SENTRY_AUTH_TOKEN := None;
                     env_SENTRY_ORG_SLUG := None |}
                  "SENTRY_URL environment variable is required")).
  left. split; reflexivity.
Defined.
